(** * CAPEC word cloud: a shallow embedding of [word-cloud.py]

    The dashboard loads a CAPEC table, derives a colour and a font size per
    row, draws the IDs at random positions, and answers clicks with details
    of the selected row.  The callbacks [on_click], [update_table] and
    [update_figure] and the module-level tables are embedded below as
    functions over an explicit copy of the module globals; Python
    exceptions are results of type [outcome]. *)

From Stdlib Require Import List String Ascii ZArith Lia Bool Arith.
From Stdlib Require Import DecimalString.
Import ListNotations.
Local Open Scope string_scope.
Local Open Scope list_scope.

(** ** Python values and builtins used by the script *)

Module Py.

Inductive exn : Set := KeyError | ValueError | IndexError.

(** The result of evaluating a Python expression: a value, or a raised
    exception that unwinds the callback. *)
Inductive outcome (A : Type) : Type :=
| Return (a : A)
| Raise (e : exn).
Arguments Return {A} a.
Arguments Raise {A} e.

Definition bind {A B} (m : outcome A) (k : A -> outcome B) : outcome B :=
  match m with
  | Return a => k a
  | Raise e => Raise e
  end.

(** [[f(v) for v in l]]: the first element that raises ends the
    comprehension. *)
Fixpoint comprehension {A B} (f : A -> outcome B) (l : list A)
  : outcome (list B) :=
  match l with
  | [] => Return []
  | a :: l' =>
      bind (f a) (fun b =>
      bind (comprehension f l') (fun bs => Return (b :: bs)))
  end.

(** [d[k]] on a dict written as its literal, in insertion order. *)
Fixpoint getitem {K V} (eqb : K -> K -> bool) (d : list (K * V)) (k : K)
  : outcome V :=
  match d with
  | [] => Raise KeyError
  | (k', v) :: d' => if eqb k' k then Return v else getitem eqb d' k
  end.

(** [k in d] *)
Definition contains_key {K V} (eqb : K -> K -> bool) (d : list (K * V)) (k : K)
  : bool :=
  existsb (fun kv => eqb (fst kv) k) d.

(** [range(n)] *)
Definition range (n : nat) : list Z := map Z.of_nat (seq 0 n).

(** [l[start:stop]] with Python's treatment of negative and oversized
    bounds. *)
Definition clamp (len i : Z) : Z :=
  let j := if (i <? 0)%Z then (i + len)%Z else i in
  Z.max 0 (Z.min len j).

Definition slice {A} (l : list A) (start stop : Z) : list A :=
  let len := Z.of_nat (List.length l) in
  let lo := clamp len start in
  let hi := clamp len stop in
  firstn (Z.to_nat (hi - lo)) (skipn (Z.to_nat lo) l).

(** *** [str] methods *)

(** [p in s] *)
Fixpoint occurs (p s : string) : bool :=
  prefix p s ||
  match s with
  | "" => false
  | String _ r => occurs p r
  end.

(** [c not in s] for a single character [c] *)
Fixpoint lacks (c : ascii) (s : string) : bool :=
  match s with
  | "" => true
  | String d r => negb (Ascii.eqb c d) && lacks c r
  end.

(** Adding a character in front of the first piece of a split. *)
Definition push (c : ascii) (pieces : list string) : list string :=
  match pieces with
  | [] => [String c ""]
  | h :: t => String c h :: t
  end.

(** The scan behind [s.split(sep)] for a non-empty [sep]: separators are
    found left to right and do not overlap; [skip] counts the characters
    of a separator just found that are still to be passed over. *)
Fixpoint split_from (sep : string) (skip : nat) (s : string) : list string :=
  match s with
  | "" => [""]
  | String c r =>
      match skip with
      | S k => split_from sep k r
      | O =>
          if prefix sep s
          then "" :: split_from sep (String.length sep - 1) r
          else push c (split_from sep 0 r)
      end
  end.

(** [s.split(sep)]; an empty separator is a [ValueError]. *)
Definition split (s sep : string) : outcome (list string) :=
  match sep with
  | "" => Raise ValueError
  | _ => Return (split_from sep 0 s)
  end.

(** The scan behind [s.replace(old, new)] for a non-empty [old]. *)
Fixpoint replace_from (old new : string) (skip : nat) (s : string) : string :=
  match s with
  | "" => ""
  | String c r =>
      match skip with
      | S k => replace_from old new k r
      | O =>
          if prefix old s
          then new ++ replace_from old new (String.length old - 1) r
          else String c (replace_from old new 0 r)
      end
  end.

(** With an empty [old], Python puts [new] around every character. *)
Fixpoint intersperse (new s : string) : string :=
  match s with
  | "" => new
  | String c r => new ++ String c (intersperse new r)
  end.

Definition replace (s old new : string) : string :=
  match old with
  | "" => intersperse new s
  | _ => replace_from old new 0 s
  end.

(** [sep.join(l)] *)
Definition join (sep : string) (l : list string) : string :=
  String.concat sep l.

End Py.
Import Py.

Notation "x <- m ;; k" := (bind m (fun x => k))
  (at level 61, m at next level, right associativity).

(** ** Dash components returned by the callbacks *)

Module Html.

Inductive style_value : Set :=
| css (s : string)
| num (n : Z).

Definition style := list (string * style_value).

(** What a callback hands back to Dash: strings, components, lists and
    tuples of these, or [None] when the function falls off its end. *)
#[warning="-register-all"] Inductive component : Set :=
| str (s : string)
| pylist (cs : list component)
| pytuple (cs : list component)
| pynone
| P (children : component) (st : option style)
| H3 (children : component) (st : option style)
| A (children : component) (href target : string)
| Div (children : component).

(** The [href] of every anchor, in document order. *)
Fixpoint hrefs (c : component) : list string :=
  match c with
  | str _ | pynone => []
  | pylist cs | pytuple cs => flat_map hrefs cs
  | P ch _ | H3 ch _ | Div ch => hrefs ch
  | A ch h _ => h :: hrefs ch
  end.

(** Every string shown, in document order. *)
Fixpoint texts (c : component) : list string :=
  match c with
  | str s => [s]
  | pynone => []
  | pylist cs | pytuple cs => flat_map texts cs
  | P ch _ | H3 ch _ | Div ch | A ch _ _ => texts ch
  end.

End Html.
Import Html.

(** ** The table read from the CSV file *)

Module Catalog.

(** A cell of a text column: pandas stores a missing value as [np.nan],
    the one value for which [pd.isna] holds. *)
Inductive cell : Set :=
| nan
| txt (s : string).

(** Key comparison of the two style dicts for the cells of a column of
    objects.  There the [np.nan] key is found by a missing cell because
    both are the one [np.nan] object; a column without any text is
    another matter, see [float64]. *)
Definition cell_eqb (a b : cell) : bool :=
  match a, b with
  | nan, nan => true
  | txt s, txt t => String.eqb s t
  | _, _ => false
  end.

(** The columns the script reads.  [ID], [Name] and [Description] are
    used as text without a check; the others are tested with [pd.isna]
    or looked up under an [np.nan] key. *)
Record Row : Set := {
  ID : string;
  Name : string;
  Description : string;
  Typical_Severity : cell;
  Likelihood_Of_Attack : cell;
  Related_Weaknesses : cell;
  Example_Instances : cell;
  Mitigations : cell
}.

Definition DataFrame := list Row.

(** [df[col]] *)
Definition column {A} (col : Row -> A) (df : DataFrame) : list A :=
  map col df.

(** [s[i]] on a series with the default index [0 .. len-1]: the label
    must be one of the index, there is no counting from the end. *)
Definition at_label {A} (s : list A) (i : Z) : outcome A :=
  if (i <? 0)%Z then Raise KeyError
  else match nth_error s (Z.to_nat i) with
       | Some a => Return a
       | None => Raise KeyError
       end.

(** [df.loc[i, col]] *)
Definition loc {A} (df : DataFrame) (i : Z) (col : Row -> A) : outcome A :=
  at_label (column col df) i.

End Catalog.
Import Catalog.

(** ** The script *)

Module WordCloud.

Definition newline : string := String "010"%char "".

Definition color : list (cell * string) :=
  [ (txt "Very High", "red");
    (txt "High", "maroon");
    (txt "Medium", "indigo");
    (txt "Low", "turquoise");
    (txt "Very Low", "blue");
    (txt "None", "lightblue");
    (nan, "lightblue") ].

Definition weights : list (cell * Z) :=
  [ (txt "High", 35%Z);
    (txt "Medium", 27%Z);
    (txt "Low", 18%Z);
    (nan, 18%Z) ].

(** The module globals the callbacks read. *)
Record Globals : Set := {
  df : DataFrame;
  CAPECids : list string;
  severity_color : list string;
  weight_size : list Z
}.

(** A column with rows of which every cell is missing is read as
    [float64] and not as a column of objects. *)
Definition float64 (cells : list cell) : bool :=
  match cells with
  | [] => false
  | _ :: _ => forallb (cell_eqb nan) cells
  end.

(** [[d[val] for val in cells]].  In a column of objects a missing cell is
    the [np.nan] object and finds the [np.nan] key.  Iterating a [float64]
    column makes a new float for each cell: it is not the object of the
    key and, being a NaN, equals no key, so the subscript raises. *)
Definition subscripts {V} (d : list (cell * V)) (cells : list cell)
  : outcome (list V) :=
  comprehension
    (if float64 cells
     then fun _ => Raise KeyError
     else fun val => getitem cell_eqb d val)
    cells.

(** Running the top of the module on the table read from the file. *)
Definition load (csv : DataFrame) : outcome Globals :=
  sc <- subscripts color (column Typical_Severity csv) ;;
  ws <- subscripts weights (column Likelihood_Of_Attack csv) ;;
  Return {| df := csv;
            CAPECids := column ID csv;
            severity_color := sc;
            weight_size := ws |}.

(** The rows whose severity and likelihood are keys of the two dicts. *)
Definition listed (r : Row) : bool :=
  contains_key cell_eqb color (Typical_Severity r)
  && contains_key cell_eqb weights (Likelihood_Of_Attack r).

(** *** Click data *)

Record point : Set := { pointIndex : Z }.
Record click : Set := { points : list point }.

(** [clickData['points'][0]] *)
Definition first_point (cd : click) : outcome point :=
  match points cd with
  | p :: _ => Return p
  | [] => Raise IndexError
  end.

Definition grey (size : Z) : option style :=
  Some [("color", css "grey"); ("fontSize", num size)].

Definition red (size : Z) : option style :=
  Some [("color", css "red"); ("fontSize", num size)].

Section Callbacks.

(** [textwrap.wrap(text, width)], the one library routine whose result
    is shown to the user; the callbacks are written over any function
    in its place. *)
Variable wrap : string -> nat -> list string.

Definition on_click (g : Globals) (clickData : option click)
  : outcome component :=
  match clickData with
  | None =>
      Return (pytuple
        [P (str "Click on a CAPEC ID to see a description of the attack pattern")
           (grey 15)])
  | Some cd =>
      p <- first_point cd ;;
      let point_index := pointIndex p in
      name <- loc (df g) point_index Name ;;
      description <- loc (df g) point_index Description ;;
      id <- at_label (CAPECids g) point_index ;;
      let wraptext := join newline (wrap description 100) in
      let text := "To learn more follow this link: " in
      let link := ("https://capec.mitre.org/data/definitions/" ++ id)%string in
      Return (Div (pylist
        [H3 (str name) (Some [("color", css "darkgrey"); ("fontSize", num 25)]);
         P (str wraptext) (grey 15);
         P (pylist [str text; A (str link) link "_blank"]) (grey 12)]))
  end.

End Callbacks.

Definition cwe_link (cwe : string) : string :=
  ("https://cwe.mitre.org/data/definitions/" ++ cwe)%string.

Definition update_table (g : Globals) (value : string)
  (clickData : option click) : outcome component :=
  match clickData with
  | None =>
      Return (P (str "If a CAPEC ID is clicked, information will be displayed here.")
                (grey 15))
  | Some cd =>
      p <- first_point cd ;;
      let point_index := pointIndex p in
      if String.eqb value "weakness" then
        weakness <- loc (df g) point_index Related_Weaknesses ;;
        match weakness with
        | nan => Return (P (str "No weakness data available") (red 15))
        | txt w =>
            pieces <- split w "::" ;;
            let cwe_ids := slice pieces 1 (-1) in
            let text := "Below you will find a link of realted weaknesses from the Common Weakness Enumeration (CWE) catolog" in
            let list_of_cwe :=
              map (fun cwe =>
                     let link := cwe_link cwe in
                     P (A (str link) link "_blank") (grey 15)) cwe_ids in
            Return (Div (pylist [P (str text) (grey 15);
                                 P (pylist list_of_cwe) None]))
        end
      else if String.eqb value "instance" then
        instance <- loc (df g) point_index Example_Instances ;;
        match instance with
        | nan => Return (P (str "No example instance data available") (red 15))
        | txt i => Return (P (str (replace i "::" newline)) (grey 15))
        end
      else if String.eqb value "mitigation" then
        mitigation <- loc (df g) point_index Mitigations ;;
        match mitigation with
        | nan => Return (str "No mitigation available")
        | txt m => Return (P (str (replace m "::" newline)) (grey 15))
        end
      else Return pynone
  end.

(** *** The figure *)

(** [random.sample(population, k)] returns the elements found at [k]
    different positions of the population, in the order the generator
    chose the positions; [draw] is that choice.  A negative [k] or one
    above the size of the population is a [ValueError]. *)
Definition pick {A} (population : list A) (draw : list nat) : list A :=
  flat_map (fun j => match nth_error population j with
                     | Some a => [a]
                     | None => []
                     end) draw.

Definition sample {A} (population : list A) (k : Z) (draw : list nat)
  : outcome (list A) :=
  if ((k <? 0) || (Z.of_nat (List.length population) <? k))%Z
  then Raise ValueError
  else Return (pick population draw).

Fixpoint distinct (l : list nat) : bool :=
  match l with
  | [] => true
  | j :: l' => negb (existsb (Nat.eqb j) l') && distinct l'
  end.

(** The choices the generator can make for a sample of [k] out of [n]:
    [k] positions below [n], no position twice.  A call that raises
    consults no choice. *)
Definition drawn (n : nat) (k : Z) (draw : list nat) : bool :=
  if ((k <? 0) || (Z.of_nat n <? k))%Z then true
  else (Z.of_nat (List.length draw) =? k)%Z
       && forallb (fun j => Nat.ltb j n) draw
       && distinct draw.

Record Axis : Set := {
  showgrid : bool;
  showticklabels : bool;
  zeroline : bool
}.

Record Layout : Set := {
  xaxis : Axis;
  yaxis : Axis;
  width : Z;
  height : Z
}.

Record Scatter : Set := {
  x : list Z;
  y : list Z;
  mode : string;
  text : list string;
  hovertext : list string;
  hoverinfo : string;
  textfont_size : list Z;
  textfont_color : list string
}.

Record Figure : Set := {
  data : Scatter;
  layout : Layout
}.

Definition hidden : Axis :=
  {| showgrid := false; showticklabels := false; zeroline := false |}.

(** [update_figure(cids)], with the choices of the two calls of
    [random.sample] as [draw_x] and [draw_y]. *)
Definition update_figure (g : Globals) (cids : Z) (draw_x draw_y : list nat)
  : outcome Figure :=
  let layout := {| xaxis := hidden; yaxis := hidden;
                   width := 760; height := 760 |} in
  xs <- sample (range 500) cids draw_x ;;
  ys <- sample (range 500) cids draw_y ;;
  Return {| data := {| x := xs;
                       y := ys;
                       mode := "text";
                       text := CAPECids g;
                       hovertext := column Name (df g);
                       hoverinfo := "text";
                       textfont_size := weight_size g;
                       textfont_color := severity_color g |};
            layout := layout |}.

(** A point of a scatter trace as the graph shows it: the trace has as
    many points as it has both an x and a y, and point [i] carries entry
    [i] of each per-point array that reaches that far. *)
Record marker : Set := {
  at_x : Z;
  at_y : Z;
  label : option string;
  hover : option string;
  size : option Z;
  colour : option string
}.

Definition marker_at (t : Scatter) (i : nat) (xy : Z * Z) : marker :=
  {| at_x := fst xy;
     at_y := snd xy;
     label := nth_error (text t) i;
     hover := nth_error (hovertext t) i;
     size := nth_error (textfont_size t) i;
     colour := nth_error (textfont_color t) i |}.

Fixpoint markers_from (t : Scatter) (i : nat) (xys : list (Z * Z))
  : list marker :=
  match xys with
  | [] => []
  | xy :: rest => marker_at t i xy :: markers_from t (S i) rest
  end.

Definition markers (t : Scatter) : list marker :=
  markers_from t 0 (combine (x t) (y t)).

(** [s.split('\n')]: the lines of a displayed text. *)
Definition lines (s : string) : list string := split_from newline 0 s.

(** *** The controls of [app.layout] *)





(** The click Dash reports for point [i] of the trace. *)
Definition click_of (i : nat) : option click :=
  Some {| points := [ {| pointIndex := Z.of_nat i |} ] |}.

(** *** The source format of the weaknesses column *)

(** Identifiers written the way the CAPEC export frames them: a [::]
    before, between and after. *)
Definition framed (ids : list string) : string :=
  ("::" ++ join "::" ids ++ "::")%string.

(** *** The wording of the specification *)


End WordCloud.
Import WordCloud.

(** ** A small catalog to run the script on *)

Module Example.

Definition decimal (n : nat) : string :=
  NilEmpty.string_of_uint (Nat.to_uint n).

(** Row [n] of the example table: every third row lacks its optional
    texts, severity and likelihood. *)
Definition row_of (n : nat) : Row :=
  let missing := Nat.eqb (n mod 3) 0 in
  {| ID := "CAPEC-" ++ decimal n;
     Name := if Nat.eqb n 1 then "X" else "Pattern " ++ decimal n;
     Description := "An adversary abuses feature " ++ decimal n;
     Typical_Severity := if missing then nan else txt "High";
     Likelihood_Of_Attack := if missing then nan else txt "Medium";
     Related_Weaknesses := if missing then nan else txt "::123::456::";
     Example_Instances := if missing then nan else txt "first::second";
     Mitigations := if missing then nan else txt "::patch::monitor::" |}.

(** Sixty rows, [CAPEC-1] first. *)
Definition csv : DataFrame := map row_of (seq 1 60).

Definition globals : Globals :=
  {| df := csv;
     CAPECids := column ID csv;
     severity_color := map (fun r => match Typical_Severity r with
                                     | nan => "lightblue"
                                     | txt _ => "maroon"
                                     end) csv;
     weight_size := map (fun r => match Likelihood_Of_Attack r with
                                  | nan => 18%Z
                                  | txt _ => 27%Z
                                  end) csv |}.

(** [k] positions below 500 that the generator may pick, in an order that
    is not the natural one. *)
Definition scattered (k start : nat) : list nat :=
  map (fun i => (37 * i + start) mod 500) (seq 0 k).

(** A click on point [i]. *)
Definition click_at (i : Z) : option click :=
  Some {| points := [ {| pointIndex := i |} ] |}.

(** [textwrap.wrap] on a text that fits the width, has single spaces
    between its words and none at either end: the text, on one line. *)
Definition short_wrap (s : string) (width : nat) : list string := [s].

(** A table whose only row has a severity that [color] does not list. *)
Definition unlisted_severity : DataFrame :=
  [ {| ID := "CAPEC-1"; Name := "X"; Description := "d";
       Typical_Severity := txt "Critical";
       Likelihood_Of_Attack := txt "High";
       Related_Weaknesses := nan;
       Example_Instances := nan;
       Mitigations := nan |} ].

(** A table whose only row has a likelihood that [weights] does not
    list, though [color] lists the same word. *)
Definition unlisted_likelihood : DataFrame :=
  [ {| ID := "CAPEC-1"; Name := "X"; Description := "d";
       Typical_Severity := txt "High";
       Likelihood_Of_Attack := txt "Very High";
       Related_Weaknesses := nan;
       Example_Instances := nan;
       Mitigations := nan |} ].

(** A table whose severity column has no text at all. *)
Definition no_severity : DataFrame :=
  [ {| ID := "CAPEC-1"; Name := "X"; Description := "d";
       Typical_Severity := nan;
       Likelihood_Of_Attack := txt "High";
       Related_Weaknesses := txt "::123::";
       Example_Instances := nan;
       Mitigations := nan |};
    {| ID := "CAPEC-2"; Name := "Y"; Description := "e";
       Typical_Severity := nan;
       Likelihood_Of_Attack := nan;
       Related_Weaknesses := nan;
       Example_Instances := nan;
       Mitigations := nan |} ].

(** Globals over a table whose weaknesses column is text, framed in the
    first row and not in the others: a bare name, identifiers with [::]
    between them only, and a frame on one side only. *)
Definition unframed_row (n : nat) (weaknesses : string) : Row :=
  {| ID := "CAPEC-" ++ decimal n;
     Name := "Pattern " ++ decimal n;
     Description := "d";
     Typical_Severity := txt "High";
     Likelihood_Of_Attack := txt "High";
     Related_Weaknesses := txt weaknesses;
     Example_Instances := nan;
     Mitigations := nan |}.

Definition unframed : Globals :=
  {| df := [ unframed_row 1 "::123::456::";
             unframed_row 2 "CWE-79";
             unframed_row 3 "a::b::c";
             unframed_row 4 "::123::456" ];
     CAPECids := ["CAPEC-1"; "CAPEC-2"; "CAPEC-3"; "CAPEC-4"];
     severity_color := ["maroon"; "maroon"; "maroon"; "maroon"];
     weight_size := [35%Z; 35%Z; 35%Z; 35%Z] |}.

(** Globals over a one-row table whose instances and mitigations are
    plain sentences, the second with a single colon. *)
Definition plain : Globals :=
  {| df := [ {| ID := "CAPEC-7"; Name := "Blind SQL Injection";
                Description := "d";
                Typical_Severity := txt "High";
                Likelihood_Of_Attack := txt "High";
                Related_Weaknesses := nan;
                Example_Instances := txt "One known case.";
                Mitigations := txt "Note: validate all input." |} ];
     CAPECids := ["CAPEC-7"];
     severity_color := ["maroon"];
     weight_size := [35%Z] |}.

End Example.

(** * Properties *)

(** ** Strings *)

Section StringFacts.

Local Open Scope string_scope.

Lemma append_empty_r (s : string) : s ++ "" = s.
Proof. induction s as [|c s IH]; simpl; [reflexivity | now rewrite IH]. Qed.

Lemma append_assoc (a b c : string) : (a ++ b) ++ c = a ++ b ++ c.
Proof. induction a as [|x a IH]; simpl; [reflexivity | now rewrite IH]. Qed.

Lemma length_append (a b : string) :
  String.length (a ++ b) = String.length a + String.length b.
Proof. induction a as [|x a IH]; simpl; [reflexivity | now rewrite IH]. Qed.

Lemma prefix_append (p r : string) : prefix p (p ++ r) = true.
Proof.
  induction p as [|a p IH]; simpl.
  - now destruct r.
  - destruct (ascii_dec a a) as [_|ne]; [exact IH | now elim ne].
Qed.

Lemma prefix_inv (p s : string) :
  prefix p s = true -> exists r, s = p ++ r.
Proof.
  revert s; induction p as [|a p IH]; intros s H.
  - now exists s.
  - destruct s as [|b s]; simpl in H; [discriminate|].
    destruct (ascii_dec a b) as [->|]; [|discriminate].
    destruct (IH _ H) as [r ->]. now exists r.
Qed.

(** A prefix of a prefix: what starts [s ++ u] and fits in [s] starts [s]. *)
Lemma prefix_shorter (p s u : string) :
  prefix p (s ++ u) = true -> String.length p <= String.length s ->
  prefix p s = true.
Proof.
  revert s; induction p as [|a p IH]; intros s H L.
  - now destruct s.
  - destruct s as [|b s]; simpl in L; [lia|].
    simpl in *. destruct (ascii_dec a b); [|discriminate].
    apply IH; [assumption | lia].
Qed.

Lemma prefix_cons (a : ascii) (p : string) (b : ascii) (s : string) :
  prefix (String a p) (String b s)
  = if ascii_dec a b then prefix p s else false.
Proof. reflexivity. Qed.

Lemma prefix_empty (s : string) : prefix "" s = true.
Proof. now destruct s. Qed.

Lemma occurs_prefix (p s : string) : prefix p s = true -> occurs p s = true.
Proof. intros H. destruct s; cbn [occurs]; rewrite H; reflexivity. Qed.

Lemma occurs_cons (p : string) (c : ascii) (s : string) :
  occurs p (String c s) = prefix p (String c s) || occurs p s.
Proof. reflexivity. Qed.

End StringFacts.

(** ** The scans of [split] and [replace] *)

(** Characters still to be skipped are passed over without effect. *)
Lemma split_from_skip (sep t r : string) :
  split_from sep (String.length t) (t ++ r)%string = split_from sep 0 r.
Proof. induction t as [|c t IH]; simpl; [reflexivity | exact IH]. Qed.

Lemma replace_from_skip (sep new t r : string) :
  replace_from sep new (String.length t) (t ++ r)%string = replace_from sep new 0 r.
Proof. induction t as [|c t IH]; simpl; [reflexivity | exact IH]. Qed.

Section Scan.

Local Open Scope string_scope.

Variable sep : string.
Hypothesis sep_nonempty : sep <> "".

(** The three equations of the scan. *)
Lemma split_from_empty : split_from sep 0 "" = [""].
Proof. reflexivity. Qed.

Lemma split_from_sep (r : string) :
  split_from sep 0 (sep ++ r) = "" :: split_from sep 0 r.
Proof.
  destruct sep as [|a t] eqn:E; [now elim sep_nonempty|].
  change (String a t ++ r) with (String a (t ++ r)).
  cbn [split_from].
  change (String a (t ++ r)) with (String a t ++ r).
  rewrite prefix_append.
  replace (String.length (String a t) - 1) with (String.length t)
    by (simpl; lia).
  now rewrite split_from_skip.
Qed.

Lemma split_from_char (c : ascii) (r : string) :
  prefix sep (String c r) = false ->
  split_from sep 0 (String c r) = push c (split_from sep 0 r).
Proof. intros H. cbn [split_from]. now rewrite H. Qed.

Lemma replace_from_sep (new r : string) :
  replace_from sep new 0 (sep ++ r) = new ++ replace_from sep new 0 r.
Proof.
  destruct sep as [|a t] eqn:E; [now elim sep_nonempty|].
  change (String a t ++ r) with (String a (t ++ r)).
  cbn [replace_from].
  change (String a (t ++ r)) with (String a t ++ r).
  rewrite prefix_append.
  replace (String.length (String a t) - 1) with (String.length t)
    by (simpl; lia).
  now rewrite replace_from_skip.
Qed.

Lemma replace_from_char (new : string) (c : ascii) (r : string) :
  prefix sep (String c r) = false ->
  replace_from sep new 0 (String c r) = String c (replace_from sep new 0 r).
Proof. intros H. cbn [replace_from]. now rewrite H. Qed.

(** Induction along the scan: the text is empty, or starts with the
    separator, or starts with a character that does not begin one. *)
Lemma scan_ind (Q : string -> Prop) :
  Q "" ->
  (forall r, Q r -> Q (sep ++ r)) ->
  (forall c r, prefix sep (String c r) = false -> Q r -> Q (String c r)) ->
  forall s, Q s.
Proof.
  intros Hnil Hsep Hchar s.
  remember (String.length s) as n eqn:Hn.
  revert s Hn. induction n as [n IH] using lt_wf_ind. intros s Hn.
  destruct s as [|c r]; [exact Hnil|].
  destruct (prefix sep (String c r)) eqn:Hp.
  - destruct (prefix_inv _ _ Hp) as [u Hu]. rewrite Hu.
    apply Hsep. apply (IH (String.length u)); [|reflexivity].
    rewrite Hn, Hu, length_append.
    destruct sep; [now elim sep_nonempty | simpl; lia].
  - apply Hchar; [exact Hp|].
    apply (IH (String.length r)); [simpl in Hn; lia | reflexivity].
Qed.

Lemma split_from_nonempty (s : string) : split_from sep 0 s <> [].
Proof.
  induction s using scan_ind.
  - discriminate.
  - rewrite split_from_sep. discriminate.
  - rewrite split_from_char by assumption.
    destruct (split_from sep 0 s); discriminate.
Qed.

Lemma join_push (c : ascii) (l : list string) :
  l <> [] -> join sep (push c l) = String c (join sep l).
Proof.
  intros H. destruct l as [|h t]; [now elim H|].
  destruct t; reflexivity.
Qed.

(** Gluing the pieces back with the separator restores the text. *)
Lemma join_split_from (s : string) : join sep (split_from sep 0 s) = s.
Proof.
  induction s using scan_ind.
  - reflexivity.
  - rewrite split_from_sep.
    pose proof (split_from_nonempty s) as Hne.
    unfold join in *. simpl.
    destruct (split_from sep 0 s) eqn:E; [now elim Hne|].
    now rewrite IHs.
  - rewrite split_from_char by assumption.
    rewrite join_push by apply split_from_nonempty.
    now rewrite IHs.
Qed.

(** [replace] glues the same pieces with the new text. *)
Lemma replace_from_join (new s : string) :
  replace_from sep new 0 s = join new (split_from sep 0 s).
Proof.
  induction s using scan_ind.
  - reflexivity.
  - rewrite split_from_sep, replace_from_sep.
    pose proof (split_from_nonempty s) as Hne.
    unfold join in *. simpl.
    destruct (split_from sep 0 s) eqn:E; [now elim Hne|].
    now rewrite IHs.
  - rewrite split_from_char, replace_from_char by assumption.
    rewrite IHs.
    pose proof (split_from_nonempty s) as Hne.
    destruct (split_from sep 0 s) as [|h t]; [now elim Hne|].
    destruct t; reflexivity.
Qed.

(** The first piece starts the text. *)
Lemma split_from_head (s h : string) (t : list string) :
  split_from sep 0 s = h :: t -> exists u, s = h ++ u.
Proof.
  intros E. pose proof (join_split_from s) as J. rewrite E in J.
  unfold join in J. simpl in J. destruct t.
  - exists "". now rewrite append_empty_r.
  - eexists. symmetry. exact J.
Qed.

(** No piece holds a separator. *)
Lemma split_from_pieces (s : string) :
  Forall (fun piece => occurs sep piece = false) (split_from sep 0 s).
Proof.
  induction s using scan_ind.
  - constructor; [|constructor].
    destruct sep; [now elim sep_nonempty | reflexivity].
  - rewrite split_from_sep. constructor; [|assumption].
    destruct sep; [now elim sep_nonempty | reflexivity].
  - rewrite split_from_char by assumption.
    destruct (split_from sep 0 s) as [|h t] eqn:E;
      [now elim (split_from_nonempty s)|].
    inversion IHs as [|? ? Hh Ht]; subst.
    constructor; [|assumption].
    rewrite occurs_cons, Hh, orb_false_r.
    destruct (prefix sep (String c h)) eqn:Hp; [|reflexivity].
    destruct (split_from_head _ _ _ E) as [u ->].
    destruct (prefix_inv _ _ Hp) as [v Hv].
    change (String c (h ++ u)) with (String c h ++ u) in H.
    rewrite Hv, append_assoc, prefix_append in H. discriminate.
Qed.

(** A text without separator is its own single piece. *)
Lemma split_from_whole (s : string) :
  occurs sep s = false -> split_from sep 0 s = [s].
Proof.
  induction s as [|c r IH]; intros H; [reflexivity|].
  rewrite occurs_cons in H. apply orb_false_iff in H as [Hp Ho].
  rewrite split_from_char by assumption. now rewrite IH.
Qed.

End Scan.

(** ** Lookups *)

Lemma at_label_found {A} (s : list A) (i : Z) (a : A) :
  (0 <= i)%Z -> nth_error s (Z.to_nat i) = Some a -> at_label s i = Return a.
Proof.
  intros Hi Hn. unfold at_label.
  destruct (Z.ltb_spec i 0); [lia|]. now rewrite Hn.
Qed.

Lemma loc_found {A} (table : DataFrame) (i : Z) (r : Row) (col : Row -> A) :
  (0 <= i)%Z -> nth_error table (Z.to_nat i) = Some r ->
  loc table i col = Return (col r).
Proof.
  intros Hi Hn. apply at_label_found; [assumption|].
  unfold column. now apply map_nth_error.
Qed.

Lemma getitem_key {K V} (eqb : K -> K -> bool) (d : list (K * V)) (k : K) :
  if contains_key eqb d k
  then exists v, getitem eqb d k = Return v
  else getitem eqb d k = Raise KeyError.
Proof.
  induction d as [|[k' v] d IH]; simpl; [reflexivity|].
  destruct (eqb k' k); simpl; [now exists v | exact IH].
Qed.

Lemma getitem_raises {K V} (eqb : K -> K -> bool) (d : list (K * V)) (k : K)
  (e : exn) : getitem eqb d k = Raise e -> e = KeyError.
Proof.
  induction d as [|[k' v] d IH]; simpl; [congruence|].
  destruct (eqb k' k); [discriminate | exact IH].
Qed.

(** A comprehension over elements that all evaluate returns one value per
    element, in order. *)
Lemma comprehension_returns {A B} (f : A -> outcome B) (l : list A) :
  (forall a, In a l -> exists b, f a = Return b) ->
  exists bs, comprehension f l = Return bs /\ map Return bs = map f l.
Proof.
  induction l as [|a l IH]; intros H; simpl.
  - now exists [].
  - destruct (H a (or_introl eq_refl)) as [b Hb].
    destruct IH as [bs [Hbs Hmap]]; [intros; apply H; now right|].
    exists (b :: bs). rewrite Hb, Hbs. simpl. now rewrite Hmap.
Qed.

(** A comprehension with an element that raises, raises. *)
Lemma comprehension_raises {A B} (f : A -> outcome B) (l : list A) (e : exn) :
  (forall a e', f a = Raise e' -> e' = e) ->
  (exists a, In a l /\ f a = Raise e) ->
  comprehension f l = Raise e.
Proof.
  intros Hone. induction l as [|a l IH]; intros [a' [Hin Ha']].
  - destruct Hin.
  - simpl. destruct (f a) as [b|e'] eqn:E.
    + destruct Hin as [->|Hin]; [congruence|].
      rewrite IH; [reflexivity | now exists a'].
    + simpl. f_equal. now apply Hone with a.
Qed.

(** A comprehension over a mapped list that returns has one value per
    element. *)
Lemma comprehension_map {A B C} (h : B -> outcome C) (k : A -> B)
  (l : list A) (cs : list C) :
  comprehension h (map k l) = Return cs ->
  map Return cs = map (fun a => h (k a)) l.
Proof.
  revert cs. induction l as [|a l IH]; simpl; intros cs E.
  - now inversion E.
  - destruct (h (k a)) as [c|] eqn:Ec; [|discriminate]. simpl in E.
    destruct (comprehension h (map k l)) as [cs'|] eqn:Ecs; [|discriminate].
    inversion E; subst. simpl. now rewrite (IH cs' eq_refl).
Qed.

(** A [float64] column has rows, and every subscript on it raises. *)
Lemma subscripts_float64 {V} (d : list (cell * V)) (cells : list cell) :
  float64 cells = true -> subscripts d cells = Raise KeyError.
Proof.
  intros F. unfold subscripts. rewrite F.
  destruct cells; [discriminate | reflexivity].
Qed.

(** Subscripts that return looked every cell up in the dict. *)
Lemma subscripts_returned {V} (d : list (cell * V)) (col : Row -> cell)
  (csv : DataFrame) (vs : list V) :
  subscripts d (column col csv) = Return vs ->
  map Return vs = map (fun r => getitem cell_eqb d (col r)) csv.
Proof.
  intros E. destruct (float64 (column col csv)) eqn:F.
  - rewrite (subscripts_float64 d _ F) in E. discriminate.
  - unfold subscripts in E. rewrite F in E. unfold column in E.
    exact (comprehension_map (fun val => getitem cell_eqb d val) col csv vs E).
Qed.

(** What [load] leaves in the globals. *)
Lemma load_globals (csv : DataFrame) (g : Globals) :
  load csv = Return g ->
  df g = csv /\
  CAPECids g = column ID csv /\
  map Return (severity_color g)
  = map (fun r => getitem cell_eqb color (Typical_Severity r)) csv /\
  map Return (weight_size g)
  = map (fun r => getitem cell_eqb weights (Likelihood_Of_Attack r)) csv.
Proof.
  unfold load. intros H.
  destruct (subscripts color (column Typical_Severity csv)) as [sc|] eqn:Esc;
    [|discriminate].
  cbn [bind] in H.
  destruct (subscripts weights (column Likelihood_Of_Attack csv)) as [ws|]
    eqn:Ews; [|discriminate].
  inversion H; subst; cbn.
  repeat split;
    [exact (subscripts_returned _ _ _ _ Esc)
    |exact (subscripts_returned _ _ _ _ Ews)].
Qed.

Lemma map_Return_nth {A} (l : list A) (fs : list (outcome A)) (i : nat)
  (o : outcome A) :
  map Return l = fs -> nth_error fs i = Some o ->
  exists a, nth_error l i = Some a /\ o = Return a.
Proof.
  intros <- H. rewrite nth_error_map in H.
  destruct (nth_error l i) as [a|]; [|discriminate].
  inversion H. now exists a.
Qed.

(** ** Style Mapper *)

Lemma forallb_false {A} (f : A -> bool) (l : list A) :
  forallb f l = false -> exists a, In a l /\ f a = false.
Proof.
  induction l as [|a l IH]; simpl; [discriminate|].
  destruct (f a) eqn:E; simpl.
  - intros H. destruct (IH H) as [a' [Hin Ha']]. exists a'. now split; [right|].
  - intros _. exists a. now split; [left|].
Qed.

Lemma lookups_return {V} (d : list (cell * V)) (col : Row -> cell)
  (csv : DataFrame) :
  forallb (fun r => contains_key cell_eqb d (col r)) csv = true ->
  exists vs,
    comprehension (fun val => getitem cell_eqb d val) (column col csv)
    = Return vs /\
    map Return vs = map (fun r => getitem cell_eqb d (col r)) csv.
Proof.
  intros H. rewrite forallb_forall in H.
  destruct (comprehension_returns (fun val => getitem cell_eqb d val)
              (column col csv)) as [vs [E M]].
  - intros a Ha. unfold column in Ha. apply in_map_iff in Ha as [r [<- Hr]].
    pose proof (getitem_key cell_eqb d (col r)) as G.
    now rewrite (H r Hr) in G.
  - exists vs. split; [exact E|]. rewrite M. unfold column. now rewrite map_map.
Qed.

Lemma lookups_raise {V} (d : list (cell * V)) (col : Row -> cell)
  (csv : DataFrame) :
  forallb (fun r => contains_key cell_eqb d (col r)) csv = false ->
  comprehension (fun val => getitem cell_eqb d val) (column col csv)
  = Raise KeyError.
Proof.
  intros H. apply forallb_false in H as [r [Hin Hr]].
  apply comprehension_raises.
  - intros a e. apply getitem_raises.
  - exists (col r). split; [unfold column; now apply in_map|].
    pose proof (getitem_key cell_eqb d (col r)) as G. now rewrite Hr in G.
Qed.

Lemma cell_eqb_eq (a b : cell) : cell_eqb a b = true <-> a = b.
Proof.
  destruct a as [|s], b as [|t]; simpl; split; try congruence.
  - intros H. apply String.eqb_eq in H. now subst.
  - intros H. inversion H. apply String.eqb_refl.
Qed.

Lemma contains_key_In {V} (d : list (cell * V)) (k : cell) :
  contains_key cell_eqb d k = true <-> In k (map fst d).
Proof.
  unfold contains_key. rewrite existsb_exists, in_map_iff.
  split; intros [kv [H1 H2]]; exists kv.
  - split; [now apply cell_eqb_eq | assumption].
  - split; [assumption | now apply cell_eqb_eq].
Qed.

(** The listed rows, spelled out. *)
Lemma listed_rows (r : Row) :
  listed r = true <->
  In (Typical_Severity r)
     [txt "Very High"; txt "High"; txt "Medium"; txt "Low"; txt "Very Low";
      txt "None"; nan] /\
  In (Likelihood_Of_Attack r) [txt "High"; txt "Medium"; txt "Low"; nan].
Proof.
  unfold listed. rewrite andb_true_iff, !contains_key_In. reflexivity.
Qed.

(** The claim read literally fails: a severity, or a likelihood, that is
    text but not a key of the dict stops the module with [KeyError], and
    so does a severity column in which every cell is missing. *)
Lemma unlisted_value_raises :
  load Example.unlisted_severity = Raise KeyError /\
  load Example.unlisted_likelihood = Raise KeyError /\
  load Example.no_severity = Raise KeyError /\
  ~ (forall csv, exists g, load csv = Return g).
Proof.
  split; [reflexivity|]. split; [reflexivity|]. split; [reflexivity|].
  intros H. destruct (H Example.unlisted_severity) as [g Hg]. discriminate.
Qed.

(** Subscripts on a column of objects whose cells are all keys. *)
Lemma subscripts_return {V} (d : list (cell * V)) (col : Row -> cell)
  (csv : DataFrame) :
  float64 (column col csv) = false ->
  forallb (fun r => contains_key cell_eqb d (col r)) csv = true ->
  exists vs,
    subscripts d (column col csv) = Return vs /\
    map Return vs = map (fun r => getitem cell_eqb d (col r)) csv.
Proof.
  intros F H. unfold subscripts. rewrite F.
  exact (lookups_return d col csv H).
Qed.

(** Subscripts on a column with a cell that is no key. *)
Lemma subscripts_raise {V} (d : list (cell * V)) (col : Row -> cell)
  (csv : DataFrame) :
  forallb (fun r => contains_key cell_eqb d (col r)) csv = false ->
  subscripts d (column col csv) = Raise KeyError.
Proof.
  intros H. destruct (float64 (column col csv)) eqn:F.
  - exact (subscripts_float64 d _ F).
  - unfold subscripts. rewrite F. exact (lookups_raise d col csv H).
Qed.

(** C2, as amended.  The [np.nan] entries of the dicts give a missing
    severity the colour of ["None"] and a missing likelihood the size of
    ["Low"].  On a table whose severities and likelihoods are all keys of
    the dicts (the listed words, or missing) and whose two columns each
    hold some text, the mapper returns one colour and one size per row,
    each the dict entry of that row's value, so ["lightblue"] and 18 for
    the missing ones; a severity or likelihood that is text and no key
    makes it raise [KeyError]. *)
Theorem style_mapper_listed_rows (csv : DataFrame) :
  getitem cell_eqb color nan = getitem cell_eqb color (txt "None") /\
  getitem cell_eqb weights nan = getitem cell_eqb weights (txt "Low") /\
  (forallb listed csv = false -> load csv = Raise KeyError) /\
  (forallb listed csv = true ->
   float64 (column Typical_Severity csv) = false ->
   float64 (column Likelihood_Of_Attack csv) = false ->
   exists g,
     load csv = Return g /\
     List.length (severity_color g) = List.length csv /\
     List.length (weight_size g) = List.length csv /\
     forall i r, nth_error csv i = Some r ->
       exists c s,
         nth_error (severity_color g) i = Some c /\
         nth_error (weight_size g) i = Some s /\
         getitem cell_eqb color (Typical_Severity r) = Return c /\
         getitem cell_eqb weights (Likelihood_Of_Attack r) = Return s /\
         (Typical_Severity r = nan -> c = "lightblue") /\
         (Likelihood_Of_Attack r = nan -> s = 18%Z)).
Proof.
  split; [reflexivity|]. split; [reflexivity|].
  assert (Hsplit : forallb listed csv
                   = forallb (fun r => contains_key cell_eqb color
                                         (Typical_Severity r)) csv
                     && forallb (fun r => contains_key cell_eqb weights
                                            (Likelihood_Of_Attack r)) csv).
  { unfold listed. induction csv as [|r csv IH]; [reflexivity|].
    cbn [forallb]. rewrite IH.
    destruct (contains_key cell_eqb color (Typical_Severity r)),
             (contains_key cell_eqb weights (Likelihood_Of_Attack r)),
             (forallb (fun r => contains_key cell_eqb color
                                  (Typical_Severity r)) csv),
             (forallb (fun r => contains_key cell_eqb weights
                                  (Likelihood_Of_Attack r)) csv);
      reflexivity. }
  split.
  - intros Hall. rewrite Hsplit in Hall. unfold load.
    destruct (forallb (fun r => contains_key cell_eqb color
                                  (Typical_Severity r)) csv) eqn:Hsev.
    + cbn [andb] in Hall.
      destruct (subscripts color (column Typical_Severity csv)) as [sc|e]
        eqn:Esc; cbn [bind].
      * now rewrite (subscripts_raise weights Likelihood_Of_Attack csv Hall).
      * destruct (float64 (column Typical_Severity csv)) eqn:F.
        -- rewrite (subscripts_float64 color _ F) in Esc. congruence.
        -- destruct (subscripts_return color Typical_Severity csv F Hsev)
             as [vs [Evs _]]. congruence.
    + now rewrite (subscripts_raise color Typical_Severity csv Hsev).
  - intros Hall Fsev Flik. rewrite Hsplit in Hall.
    apply andb_true_iff in Hall as [Hsev Hlik].
    destruct (subscripts_return color Typical_Severity csv Fsev Hsev)
      as [sc [Esc Msc]].
    destruct (subscripts_return weights Likelihood_Of_Attack csv Flik Hlik)
      as [ws [Ews Mws]].
    eexists. unfold load. rewrite Esc, Ews. cbn [bind].
    split; [reflexivity|]. cbn [severity_color weight_size].
    assert (Lsc : List.length sc = List.length csv).
    { apply (f_equal (@List.length _)) in Msc. now rewrite !length_map in Msc. }
    assert (Lws : List.length ws = List.length csv).
    { apply (f_equal (@List.length _)) in Mws. now rewrite !length_map in Mws. }
    split; [exact Lsc|]. split; [exact Lws|].
    intros i r Hr.
    destruct (map_Return_nth sc _ i
                (getitem cell_eqb color (Typical_Severity r)) Msc)
      as [c [Hc Ec]]; [now apply map_nth_error with (f := fun r => _)|].
    destruct (map_Return_nth ws _ i
                (getitem cell_eqb weights (Likelihood_Of_Attack r)) Mws)
      as [z [Hz Ez]]; [now apply map_nth_error with (f := fun r => _)|].
    exists c, z. repeat split; try assumption.
    + intros Hn. rewrite Hn in Ec. now inversion Ec.
    + intros Hn. rewrite Hn in Ez. now inversion Ez.
Qed.

(** The example table loads, and row 3, which lacks both values, gets the
    colour of ["None"] and the size of ["Low"]. *)
Lemma style_mapper_listed_rows_example :
  exists g, load Example.csv = Return g /\
    nth_error (severity_color g) 2 = Some "lightblue" /\
    nth_error (weight_size g) 2 = Some 18%Z.
Proof.
  destruct (style_mapper_listed_rows Example.csv) as [_ [_ [_ H]]].
  destruct (H eq_refl eq_refl eq_refl) as [g [Hg [_ [_ Hrow]]]].
  exists g. split; [exact Hg|].
  destruct (Hrow 2 (Example.row_of 3) eq_refl)
    as [c [s [Hc [Hs [_ [_ [Ec Es]]]]]]].
  rewrite Hc, Hs, (Ec eq_refl), (Es eq_refl). split; reflexivity.
Defined.

(** ** Selection Resolver *)

(** [l[1:-1]] drops the first and the last element. *)
Lemma slice_inner {A} (l : list A) : slice l 1 (-1) = removelast (tl l).
Proof.
  destruct l as [|a [|b l]]; [reflexivity | reflexivity |].
  unfold slice, clamp.
  remember (a :: b :: l) as l0 eqn:E.
  assert (L : Z.of_nat (List.length l0) = (Z.of_nat (List.length l) + 2)%Z)
    by (subst; simpl List.length; lia).
  rewrite L.
  change (-1 <? 0)%Z with true. change (1 <? 0)%Z with false. cbv iota.
  set (n := Z.of_nat (List.length l)).
  replace (Z.to_nat (Z.max 0 (Z.min (n + 2) (-1 + (n + 2)))
                     - Z.max 0 (Z.min (n + 2) 1)))
    with (List.length l) by lia.
  replace (Z.to_nat (Z.max 0 (Z.min (n + 2) 1))) with 1 by lia.
  subst l0. simpl skipn. simpl tl.
  now rewrite removelast_firstn_len.
Qed.

Lemma colons_nonempty : "::" <> "".
Proof. discriminate. Qed.

Lemma split_colons (w : string) :
  split w "::" = Return (split_from "::" 0 w).
Proof. reflexivity. Qed.



Lemma hrefs_of_links (note : string) (ids : list string) :
  hrefs (Div (pylist
    [P (str note) (grey 15);
     P (pylist (map (fun cwe => P (A (str (cwe_link cwe)) (cwe_link cwe)
                                     "_blank") (grey 15)) ids))
       None]))
  = map cwe_link ids.
Proof.
  cbn [hrefs flat_map app]. rewrite app_nil_r.
  induction ids as [|a ids IH]; [reflexivity|].
  simpl. now rewrite IH.
Qed.

(** *** Pieces without colon *)

Lemma lacks_colon_prefix (l rest : string) :
  lacks ":" l = true -> l <> "" -> prefix "::" (l ++ rest) = false.
Proof.
  destruct l as [|d l]; [congruence|]. intros H _.
  cbn [lacks] in H. apply andb_true_iff in H as [Hd _].
  apply negb_true_iff, Ascii.eqb_neq in Hd.
  change (String d l ++ rest)%string with (String d (l ++ rest)).
  rewrite prefix_cons. now destruct (ascii_dec ":" d).
Qed.

Lemma lacks_colon_occurs (l : string) :
  lacks ":" l = true -> occurs "::" l = false.
Proof.
  induction l as [|d l IH]; intros H; [reflexivity|].
  rewrite occurs_cons.
  rewrite <- (append_empty_r (String d l)) at 1.
  rewrite (lacks_colon_prefix (String d l) "" H) by discriminate.
  cbn [lacks] in H. apply andb_true_iff in H as [_ Hl]. now rewrite IH.
Qed.

(** A piece without colon is cut off at the first [::] after it. *)
Lemma split_from_colon_piece (l rest : string) :
  lacks ":" l = true ->
  split_from "::" 0 (l ++ "::" ++ rest) = l :: split_from "::" 0 rest.
Proof.
  induction l as [|d l IH]; intros H.
  - exact (split_from_sep "::" colons_nonempty rest).
  - change (String d l ++ "::" ++ rest)%string
      with (String d (l ++ "::" ++ rest)).
    rewrite split_from_char.
    + cbn [lacks] in H. apply andb_true_iff in H as [_ Hl].
      now rewrite (IH Hl).
    + exact (lacks_colon_prefix (String d l) ("::" ++ rest) H
               ltac:(discriminate)).
Qed.

Lemma split_join_colon (pieces : list string) :
  pieces <> [] ->
  forallb (lacks ":") pieces = true ->
  split_from "::" 0 (join "::" pieces) = pieces.
Proof.
  unfold join. induction pieces as [|l ps IH]; intros Hne H; [now elim Hne|].
  cbn [forallb] in H. apply andb_true_iff in H as [Hl Hps].
  destruct ps as [|l' ps].
  - simpl. apply split_from_whole. now apply lacks_colon_occurs.
  - change (concat "::" (l :: l' :: ps))
      with (l ++ "::" ++ concat "::" (l' :: ps))%string.
    rewrite (split_from_colon_piece _ _ Hl).
    f_equal. apply IH; [discriminate | assumption].
Qed.

Section Selected.

(** The click carries point [i], and the table has a row [r] there. *)
Variables (g : Globals) (cd : click) (p : point) (others : list point).
Variable r : Row.
Hypothesis first : points cd = p :: others.
Hypothesis nonneg : (0 <= pointIndex p)%Z.
Hypothesis in_bounds : nth_error (df g) (Z.to_nat (pointIndex p)) = Some r.

Lemma first_point_found : first_point cd = Return p.
Proof. unfold first_point. now rewrite first. Qed.

Lemma loc_selected {A} (col : Row -> A) :
  loc (df g) (pointIndex p) col = Return (col r).
Proof. now apply loc_found. Qed.

(** Running [update_table] up to the lookup of the selected row. *)
Ltac to_selected_row :=
  unfold update_table;
  rewrite first_point_found;
  cbn [bind String.eqb Ascii.eqb Bool.eqb];
  rewrite loc_selected.

Lemma update_table_weakness :
  update_table g "weakness" (Some cd)
  = match Related_Weaknesses r with
    | nan => Return (P (str "No weakness data available") (red 15))
    | txt w =>
        Return (Div (pylist
          [P (str "Below you will find a link of realted weaknesses from the Common Weakness Enumeration (CWE) catolog")
             (grey 15);
           P (pylist
                (map (fun cwe =>
                        P (A (str (cwe_link cwe)) (cwe_link cwe) "_blank")
                          (grey 15))
                     (slice (split_from "::" 0 w) 1 (-1))))
             None]))
    end.
Proof.
  to_selected_row. cbn [bind].
  destruct (Related_Weaknesses r) as [|w]; [reflexivity|].
  now rewrite split_colons.
Qed.

Lemma update_table_instance :
  update_table g "instance" (Some cd)
  = match Example_Instances r with
    | nan => Return (P (str "No example instance data available") (red 15))
    | txt i => Return (P (str (replace i "::" newline)) (grey 15))
    end.
Proof. to_selected_row. reflexivity. Qed.

Lemma update_table_mitigation :
  update_table g "mitigation" (Some cd)
  = match Mitigations r with
    | nan => Return (str "No mitigation available")
    | txt m => Return (P (str (replace m "::" newline)) (grey 15))
    end.
Proof. to_selected_row. reflexivity. Qed.

End Selected.

(** C7.  Without a selection [on_click] returns its fixed prompt (as a
    one-element tuple, the [return] ending in a comma) and [update_table]
    returns its fixed prompt whatever the radio value. *)
Theorem no_selection_placeholders (wrap : string -> nat -> list string)
  (g : Globals) (value : string) :
  on_click wrap g None
  = Return (pytuple
      [P (str "Click on a CAPEC ID to see a description of the attack pattern")
         (grey 15)]) /\
  update_table g value None
  = Return (P (str "If a CAPEC ID is clicked, information will be displayed here.")
              (grey 15)).
Proof. split; reflexivity. Qed.

(** C6.  For a selected row of the table, a missing optional field gives
    the fixed message of its category, returned and not raised: a red
    paragraph for weaknesses and instances, the bare text for
    mitigations. *)
Theorem missing_field_messages (g : Globals) (cd : click) (p : point)
  (others : list point) (r : Row) :
  points cd = p :: others ->
  (0 <= pointIndex p)%Z ->
  nth_error (df g) (Z.to_nat (pointIndex p)) = Some r ->
  (Related_Weaknesses r = nan ->
   update_table g "weakness" (Some cd)
   = Return (P (str "No weakness data available") (red 15))) /\
  (Example_Instances r = nan ->
   update_table g "instance" (Some cd)
   = Return (P (str "No example instance data available") (red 15))) /\
  (Mitigations r = nan ->
   update_table g "mitigation" (Some cd)
   = Return (str "No mitigation available")).
Proof.
  intros Hp Hi Hr. repeat split; intros Hna.
  - rewrite (update_table_weakness g cd p others r Hp Hi Hr). now rewrite Hna.
  - rewrite (update_table_instance g cd p others r Hp Hi Hr). now rewrite Hna.
  - rewrite (update_table_mitigation g cd p others r Hp Hi Hr). now rewrite Hna.
Qed.

(** Row 3 of the example table lacks all three fields. *)
Lemma missing_field_messages_example :
  update_table Example.globals "weakness" (Example.click_at 2)
  = Return (P (str "No weakness data available") (red 15)) /\
  update_table Example.globals "instance" (Example.click_at 2)
  = Return (P (str "No example instance data available") (red 15)) /\
  update_table Example.globals "mitigation" (Example.click_at 2)
  = Return (str "No mitigation available").
Proof.
  destruct (missing_field_messages Example.globals
              {| points := [ {| pointIndex := 2 |} ] |} {| pointIndex := 2 |}
              [] (Example.row_of 3) eq_refl ltac:(simpl; lia) eq_refl)
    as [Hw [Hi Hm]].
  split; [apply Hw; reflexivity|].
  split; [apply Hi; reflexivity | apply Hm; reflexivity].
Defined.

(** C4.  For a selected row whose weaknesses field is present, the field
    is split on [::], the first and last pieces are dropped, and the
    output holds, in order, one link https://cwe.mitre.org/data/definitions/{id}
    per piece left; for [::123::456::] these are the links of 123 and
    456 and no other. *)
Theorem weakness_links (g : Globals) (cd : click) (p : point)
  (others : list point) (r : Row) (w : string) :
  points cd = p :: others ->
  (0 <= pointIndex p)%Z ->
  nth_error (df g) (Z.to_nat (pointIndex p)) = Some r ->
  Related_Weaknesses r = txt w ->
  exists pieces out,
    split w "::" = Return pieces /\
    join "::" pieces = w /\
    update_table g "weakness" (Some cd) = Return out /\
    hrefs out
    = map (fun id => "https://cwe.mitre.org/data/definitions/" ++ id)%string
        (removelast (tl pieces)) /\
    (w = "::123::456::" ->
     hrefs out = [ "https://cwe.mitre.org/data/definitions/123";
                   "https://cwe.mitre.org/data/definitions/456" ]).
Proof.
  intros Hp Hi Hr Hw.
  exists (split_from "::" 0 w). eexists.
  split; [reflexivity|].
  split; [apply join_split_from; exact colons_nonempty|].
  split.
  { rewrite (update_table_weakness g cd p others r Hp Hi Hr), Hw.
    reflexivity. }
  rewrite hrefs_of_links, slice_inner.
  split; [reflexivity|]. intros ->. reflexivity.
Qed.

(** Row 1 of the example table has the field [::123::456::]. *)
Lemma weakness_links_example :
  exists out,
    update_table Example.globals "weakness" (Example.click_at 0) = Return out /\
    hrefs out = [ "https://cwe.mitre.org/data/definitions/123";
                  "https://cwe.mitre.org/data/definitions/456" ].
Proof.
  destruct (weakness_links Example.globals
              {| points := [ {| pointIndex := 0 |} ] |} {| pointIndex := 0 |}
              [] (Example.row_of 1) "::123::456::"
              eq_refl ltac:(simpl; lia) eq_refl eq_refl)
    as [pieces [out [_ [_ [Hout [_ Hlinks]]]]]].
  exists out. split; [exact Hout | exact (Hlinks eq_refl)].
Defined.

(** C10.  The first and last pieces are dropped whatever the field looks
    like.  The field is cut at each [::] into pieces that hold none, the
    links are those of the pieces between the first and the last, two
    fewer than there are pieces; so a field without any [::] gives no link
    at all, and a field of colon-free names with [::] between them only
    loses its first and its last name. *)
Theorem weakness_unframed (g : Globals) (cd : click) (p : point)
  (others : list point) (r : Row) (w : string) :
  points cd = p :: others ->
  (0 <= pointIndex p)%Z ->
  nth_error (df g) (Z.to_nat (pointIndex p)) = Some r ->
  Related_Weaknesses r = txt w ->
  exists pieces out,
    split w "::" = Return pieces /\
    join "::" pieces = w /\
    Forall (fun piece => occurs "::" piece = false) pieces /\
    update_table g "weakness" (Some cd) = Return out /\
    hrefs out = map cwe_link (slice pieces 1 (-1)) /\
    List.length (hrefs out) = List.length pieces - 2 /\
    (occurs "::" w = false -> pieces = [w] /\ hrefs out = []) /\
    (forall first ids last,
       forallb (lacks ":") (first :: ids ++ [last]) = true ->
       w = join "::" (first :: ids ++ [last]) ->
       pieces = first :: ids ++ [last] /\
       hrefs out
       = map (fun id => "https://cwe.mitre.org/data/definitions/" ++ id)%string
           ids).
Proof.
  intros Hp Hi Hr Hw.
  exists (split_from "::" 0 w). eexists.
  split; [reflexivity|].
  split; [apply join_split_from; exact colons_nonempty|].
  split; [apply split_from_pieces; exact colons_nonempty|].
  split.
  { rewrite (update_table_weakness g cd p others r Hp Hi Hr), Hw.
    reflexivity. }
  rewrite hrefs_of_links.
  split; [reflexivity|].
  split; [|split].
  - rewrite length_map, slice_inner, removelast_firstn_len, length_firstn.
    destruct (split_from "::" 0 w) as [|a [|b l]]; simpl; lia.
  - intros Hno.
    rewrite (split_from_whole "::" w Hno). split; reflexivity.
  - intros a ids z Hfree ->.
    rewrite (split_join_colon (a :: ids ++ [z])) by (discriminate || assumption).
    split; [reflexivity|].
    rewrite slice_inner. cbn [tl]. now rewrite removelast_last.
Qed.

(** Rows 2 to 4 of a table whose weaknesses column is text: a bare name
    gives no link, [a::b::c] gives the link of b alone, and [::123::456]
    that of 123 alone. *)
Lemma weakness_unframed_example :
  (exists out,
     update_table Example.unframed "weakness" (Example.click_at 1)
     = Return out /\ hrefs out = []) /\
  (exists out,
     update_table Example.unframed "weakness" (Example.click_at 2)
     = Return out /\
     hrefs out = ["https://cwe.mitre.org/data/definitions/b"]) /\
  (exists out,
     update_table Example.unframed "weakness" (Example.click_at 3)
     = Return out /\
     hrefs out = ["https://cwe.mitre.org/data/definitions/123"]).
Proof.
  split; [|split].
  - destruct (weakness_unframed Example.unframed
                {| points := [ {| pointIndex := 1 |} ] |}
                {| pointIndex := 1 |} [] _ "CWE-79"
                eq_refl ltac:(simpl; lia) eq_refl eq_refl)
      as [pieces [out [_ [_ [_ [Hout [_ [_ [Hnone _]]]]]]]]].
    exists out. split; [exact Hout | exact (proj2 (Hnone eq_refl))].
  - destruct (weakness_unframed Example.unframed
                {| points := [ {| pointIndex := 2 |} ] |}
                {| pointIndex := 2 |} [] _ "a::b::c"
                eq_refl ltac:(simpl; lia) eq_refl eq_refl)
      as [pieces [out [_ [_ [_ [Hout [_ [_ [_ Hmid]]]]]]]]].
    exists out. split; [exact Hout|].
    exact (proj2 (Hmid "a" ["b"] "c" eq_refl eq_refl)).
  - destruct (weakness_unframed Example.unframed
                {| points := [ {| pointIndex := 3 |} ] |}
                {| pointIndex := 3 |} [] _ "::123::456"
                eq_refl ltac:(simpl; lia) eq_refl eq_refl)
      as [pieces [out [_ [_ [_ [Hout [_ [_ [_ Hmid]]]]]]]]].
    exists out. split; [exact Hout|].
    exact (proj2 (Hmid "" ["123"] "456" eq_refl eq_refl)).
Defined.



(** *** Lines of a wrapped text *)

Lemma split_from_line (c : ascii) (l rest : string) :
  occurs (String c "") l = false ->
  split_from (String c "") 0 (l ++ String c rest)
  = l :: split_from (String c "") 0 rest.
Proof.
  induction l as [|d l IH]; intros H.
  - cbn [append split_from]. rewrite prefix_cons.
    destruct (ascii_dec c c) as [_|ne]; [|now elim ne].
    now rewrite prefix_empty.
  - rewrite occurs_cons in H. apply orb_false_iff in H as [Hp Ho].
    change (String d l ++ String c rest)%string
      with (String d (l ++ String c rest)).
    rewrite split_from_char.
    + now rewrite IH.
    + rewrite prefix_cons in Hp |- *.
      destruct (ascii_dec c d); [|reflexivity].
      now rewrite prefix_empty in Hp.
Qed.

(** Joining lines that hold no line break and splitting again gives the
    lines back. *)
Lemma lines_join (ls : list string) :
  ls <> [] ->
  Forall (fun l => occurs newline l = false) ls ->
  lines (join newline ls) = ls.
Proof.
  unfold lines, join.
  induction ls as [|l ls IH]; intros Hne Hall; [now elim Hne|].
  inversion Hall as [|? ? Hl Hls]; subst.
  destruct ls as [|l' ls].
  - simpl. apply split_from_whole. exact Hl.
  - change (concat newline (l :: l' :: ls))
      with (l ++ String "010"%char (concat newline (l' :: ls)))%string.
    unfold newline at 1.
    rewrite split_from_line by exact Hl.
    f_equal. apply IH; [discriminate | assumption].
Qed.



(** ** Layout Generator *)

Lemma distinct_NoDup (l : list nat) : distinct l = true -> NoDup l.
Proof.
  induction l as [|j l IH]; simpl; intros H; [constructor|].
  apply andb_true_iff in H as [Hj Hl].
  constructor; [|now apply IH].
  intros Hin. apply negb_true_iff in Hj.
  assert (existsb (Nat.eqb j) l = true) as E; [|congruence].
  apply existsb_exists. exists j. split; [assumption | apply Nat.eqb_refl].
Qed.

(** What a valid call of [random.sample] can rely on. *)
Lemma drawn_valid (n : nat) (k : Z) (draw : list nat) :
  (0 <= k <= Z.of_nat n)%Z ->
  drawn n k draw = true ->
  Z.of_nat (List.length draw) = k /\
  Forall (fun j => j < n) draw /\
  NoDup draw.
Proof.
  intros Hk. unfold drawn.
  destruct (Z.ltb_spec k 0); [lia|].
  destruct (Z.ltb_spec (Z.of_nat n) k); [lia|]. simpl.
  intros Hd. apply andb_true_iff in Hd as [Hd Hdis].
  apply andb_true_iff in Hd as [Hlen Hall].
  split; [now apply Z.eqb_eq|]. split; [|now apply distinct_NoDup].
  apply Forall_forall. intros j Hj. rewrite forallb_forall in Hall.
  apply Nat.ltb_lt. now apply Hall.
Qed.

Lemma nth_error_range (n j : nat) :
  j < n -> nth_error (range n) j = Some (Z.of_nat j).
Proof.
  intros H. unfold range.
  rewrite nth_error_map, nth_error_seq.
  destruct (Nat.ltb_spec j n); [reflexivity | lia].
Qed.

(** Out of [range(n)] the element at position [j] is [j]. *)
Lemma pick_range (n : nat) (draw : list nat) :
  Forall (fun j => j < n) draw -> pick (range n) draw = map Z.of_nat draw.
Proof.
  unfold pick. induction 1 as [|j l Hj _ IH]; [reflexivity|].
  cbn [flat_map map]. now rewrite (nth_error_range n j Hj), IH.
Qed.

Lemma sample_range (n : nat) (k : Z) (draw : list nat) :
  (0 <= k <= Z.of_nat n)%Z ->
  drawn n k draw = true ->
  sample (range n) k draw = Return (map Z.of_nat draw).
Proof.
  intros Hk Hd. destruct (drawn_valid n k draw Hk Hd) as [_ [Hall _]].
  unfold sample.
  replace (List.length (range n)) with n
    by (unfold range; now rewrite length_map, length_seq).
  destruct (Z.ltb_spec k 0); [lia|].
  destruct (Z.ltb_spec (Z.of_nat n) k); [lia|]. simpl.
  now rewrite (pick_range n draw Hall).
Qed.

Lemma NoDup_of_nat (l : list nat) : NoDup l -> NoDup (map Z.of_nat l).
Proof.
  induction 1 as [|j l Hj _ IH]; simpl; constructor; [|exact IH].
  intros Hin. apply in_map_iff in Hin as [j' [E Hin]].
  apply Nat2Z.inj in E. now subst.
Qed.


(** Every count of the dropdown has a draw. *)
Lemma counts_have_draws (N : Z) :
  In N [20; 30; 40; 50]%Z -> drawn 500 N (seq 0 (Z.to_nat N)) = true.
Proof. simpl. intros [<-|[<-|[<-|[<-|[]]]]]; reflexivity. Qed.

(** The figure of a count in range. *)
Lemma update_figure_returns (g : Globals) (N : Z) (draw_x draw_y : list nat) :
  (0 <= N <= Z.of_nat 500)%Z ->
  drawn 500 N draw_x = true ->
  drawn 500 N draw_y = true ->
  update_figure g N draw_x draw_y
  = Return {| data := {| x := map Z.of_nat draw_x;
                         y := map Z.of_nat draw_y;
                         mode := "text";
                         text := CAPECids g;
                         hovertext := column Name (df g);
                         hoverinfo := "text";
                         textfont_size := weight_size g;
                         textfont_color := severity_color g |};
              layout := {| xaxis := hidden; yaxis := hidden;
                           width := 760; height := 760 |} |}.
Proof.
  intros HN Hx Hy. unfold update_figure.
  now rewrite (sample_range 500 N draw_x HN Hx), (sample_range 500 N draw_y HN Hy).
Qed.








(** * Further properties of the script *)

(** ** Selections the table cannot answer *)

Lemma at_label_missing {A} (s : list A) (i : Z) :
  (i < 0 \/ Z.of_nat (List.length s) <= i)%Z -> at_label s i = Raise KeyError.
Proof.
  intros H. unfold at_label. destruct (Z.ltb_spec i 0); [reflexivity|].
  destruct (nth_error s (Z.to_nat i)) eqn:E; [|reflexivity].
  assert (Z.to_nat i < List.length s)
    by (apply nth_error_Some; congruence).
  lia.
Qed.

Lemma loc_missing {A} (table : DataFrame) (i : Z) (col : Row -> A) :
  (i < 0 \/ Z.of_nat (List.length table) <= i)%Z ->
  loc table i col = Raise KeyError.
Proof.
  intros H. apply at_label_missing. unfold column. now rewrite length_map.
Qed.

(** X1.  A click whose point index is negative or not below the number
    of rows makes [on_click] raise [KeyError]: there is no default row
    and no counting from the end of the table. *)
Theorem on_click_out_of_range (wrap : string -> nat -> list string)
  (g : Globals) (cd : click) (p : point) (others : list point) :
  points cd = p :: others ->
  (pointIndex p < 0 \/ Z.of_nat (List.length (df g)) <= pointIndex p)%Z ->
  on_click wrap g (Some cd) = Raise KeyError.
Proof.
  intros Hp Hi. unfold on_click, first_point. rewrite Hp. cbn [bind].
  now rewrite (loc_missing (df g) (pointIndex p) Name Hi).
Qed.

(** The example table has sixty rows: point 60 and point -1 are outside. *)
Lemma on_click_out_of_range_example :
  on_click Example.short_wrap Example.globals (Example.click_at 60)
  = Raise KeyError /\
  on_click Example.short_wrap Example.globals (Example.click_at (-1))
  = Raise KeyError.
Proof.
  split.
  - exact (on_click_out_of_range Example.short_wrap Example.globals
             {| points := [ {| pointIndex := 60 |} ] |} {| pointIndex := 60 |}
             [] eq_refl ltac:(right; vm_compute; discriminate)).
  - exact (on_click_out_of_range Example.short_wrap Example.globals
             {| points := [ {| pointIndex := -1 |} ] |} {| pointIndex := -1 |}
             [] eq_refl ltac:(left; simpl; lia)).
Defined.

(** X2.  With one of the three radio values, a click outside the table
    makes [update_table] raise [KeyError]. *)
Theorem update_table_out_of_range (g : Globals) (value : string) (cd : click)
  (p : point) (others : list point) :
  In value ["weakness"; "instance"; "mitigation"] ->
  points cd = p :: others ->
  (pointIndex p < 0 \/ Z.of_nat (List.length (df g)) <= pointIndex p)%Z ->
  update_table g value (Some cd) = Raise KeyError.
Proof.
  intros Hv Hp Hi. unfold update_table, first_point. rewrite Hp. cbn [bind].
  destruct Hv as [<-|[<-|[<-|[]]]];
    cbn [String.eqb Ascii.eqb Bool.eqb];
    now rewrite (loc_missing (df g) (pointIndex p) _ Hi).
Qed.

Lemma update_table_out_of_range_example :
  update_table Example.globals "weakness" (Example.click_at 60)
  = Raise KeyError /\
  update_table Example.globals "mitigation" (Example.click_at (-1))
  = Raise KeyError.
Proof.
  split.
  - exact (update_table_out_of_range Example.globals "weakness"
             {| points := [ {| pointIndex := 60 |} ] |} {| pointIndex := 60 |}
             [] ltac:(simpl; auto) eq_refl
             ltac:(right; vm_compute; discriminate)).
  - exact (update_table_out_of_range Example.globals "mitigation"
             {| points := [ {| pointIndex := -1 |} ] |} {| pointIndex := -1 |}
             [] ltac:(simpl; auto) eq_refl ltac:(left; simpl; lia)).
Defined.

(** X3.  With a radio value that is none of ["weakness"], ["instance"],
    ["mitigation"], [update_table] reads no row: for any click that carries
    a point, inside the table or not, it falls off its end and returns
    [None]. *)
Theorem update_table_other_value (g : Globals) (value : string) (cd : click)
  (p : point) (others : list point) :
  ~ In value ["weakness"; "instance"; "mitigation"] ->
  points cd = p :: others ->
  update_table g value (Some cd) = Return pynone.
Proof.
  intros Hv Hp. unfold update_table, first_point. rewrite Hp. cbn [bind].
  destruct (String.eqb_spec value "weakness") as [->|_];
    [elim Hv; simpl; auto|].
  destruct (String.eqb_spec value "instance") as [->|_];
    [elim Hv; simpl; auto|].
  destruct (String.eqb_spec value "mitigation") as [->|_];
    [elim Hv; simpl; auto|].
  reflexivity.
Qed.

(** The labels of the radio items are not their values. *)
Lemma update_table_other_value_example :
  update_table Example.globals "Mitigation" (Example.click_at 0)
  = Return pynone /\
  update_table Example.globals "weaknesses" (Example.click_at 999)
  = Return pynone.
Proof.
  split.
  - apply (update_table_other_value Example.globals "Mitigation"
             {| points := [ {| pointIndex := 0 |} ] |} {| pointIndex := 0 |} []);
      [|reflexivity].
    simpl. intros [H|[H|[H|[]]]]; discriminate.
  - apply (update_table_other_value Example.globals "weaknesses"
             {| points := [ {| pointIndex := 999 |} ] |}
             {| pointIndex := 999 |} []);
      [|reflexivity].
    simpl. intros [H|[H|[H|[]]]]; discriminate.
Defined.

(** X4.  Click data that is present but lists no point makes both
    callbacks raise [IndexError], before any row or radio value is
    looked at. *)
Theorem click_without_point (wrap : string -> nat -> list string)
  (g : Globals) (value : string) (cd : click) :
  points cd = [] ->
  on_click wrap g (Some cd) = Raise IndexError /\
  update_table g value (Some cd) = Raise IndexError.
Proof.
  intros Hp. unfold on_click, update_table, first_point. rewrite Hp.
  split; reflexivity.
Qed.

Lemma click_without_point_example :
  on_click Example.short_wrap Example.globals (Some {| points := [] |})
  = Raise IndexError /\
  update_table Example.globals "instance" (Some {| points := [] |})
  = Raise IndexError.
Proof.
  exact (click_without_point Example.short_wrap Example.globals "instance"
           {| points := [] |} eq_refl).
Defined.

(** ** The figure and the table behind it *)

(** A figure that was returned carries the globals as its per-point
    arrays, and its count was between 0 and 500. *)
Lemma update_figure_data (g : Globals) (cids : Z) (draw_x draw_y : list nat)
  (fig : Figure) :
  update_figure g cids draw_x draw_y = Return fig ->
  (0 <= cids <= 500)%Z /\
  x (data fig) = pick (range 500) draw_x /\
  y (data fig) = pick (range 500) draw_y /\
  text (data fig) = CAPECids g /\
  hovertext (data fig) = column Name (df g) /\
  textfont_size (data fig) = weight_size g /\
  textfont_color (data fig) = severity_color g.
Proof.
  unfold update_figure, sample.
  replace (List.length (range 500)) with 500
    by (unfold range; now rewrite length_map, length_seq).
  destruct (Z.ltb_spec cids 0); [discriminate|].
  destruct (Z.ltb_spec (Z.of_nat 500) cids); [discriminate|].
  cbn [orb bind]. intros E. inversion E; subst; cbn.
  repeat split; try reflexivity; lia.
Qed.

(** X5.  [update_figure] accepts exactly the counts 0 to 500.  A count
    below 0 or above 500 raises [ValueError] whatever the table holds; a
    count in between gives a figure with that many x and y values, none at
    all for 0. *)
Theorem update_figure_count_bounds (g : Globals) (cids : Z)
  (draw_x draw_y : list nat) :
  ((cids < 0 \/ 500 < cids)%Z ->
   update_figure g cids draw_x draw_y = Raise ValueError) /\
  ((0 <= cids <= 500)%Z ->
   drawn 500 cids draw_x = true ->
   drawn 500 cids draw_y = true ->
   exists fig,
     update_figure g cids draw_x draw_y = Return fig /\
     Z.of_nat (List.length (x (data fig))) = cids /\
     Z.of_nat (List.length (y (data fig))) = cids /\
     (cids = 0%Z -> x (data fig) = [] /\ y (data fig) = [])).
Proof.
  split.
  - intros H. unfold update_figure, sample.
    replace (List.length (range 500)) with 500
      by (unfold range; now rewrite length_map, length_seq).
    destruct (Z.ltb_spec cids 0); [reflexivity|].
    destruct (Z.ltb_spec (Z.of_nat 500) cids); [reflexivity | lia].
  - intros Hr Hx Hy.
    assert (Hr' : (0 <= cids <= Z.of_nat 500)%Z) by lia.
    destruct (drawn_valid 500 cids draw_x Hr' Hx) as [Lx _].
    destruct (drawn_valid 500 cids draw_y Hr' Hy) as [Ly _].
    eexists.
    split; [exact (update_figure_returns g cids draw_x draw_y Hr' Hx Hy)|].
    cbn [data x y]. rewrite !length_map.
    split; [exact Lx|]. split; [exact Ly|].
    intros ->.
    destruct draw_x; [|simpl in Lx; lia].
    destruct draw_y; [|simpl in Ly; lia].
    split; reflexivity.
Qed.

(** 501 and -1 are refused on the example table; 0 gives an empty
    figure, 500 a full one. *)
Lemma update_figure_count_bounds_example :
  update_figure Example.globals 501 (seq 0 501) (seq 0 501)
  = Raise ValueError /\
  update_figure Example.globals (-1) [] [] = Raise ValueError /\
  (exists fig, update_figure Example.globals 0 [] [] = Return fig /\
               x (data fig) = [] /\ y (data fig) = []) /\
  (exists fig,
     update_figure Example.globals 500 (seq 0 500) (rev (seq 0 500))
     = Return fig /\
     Z.of_nat (List.length (x (data fig))) = 500%Z).
Proof.
  split; [|split; [|split]].
  - apply (update_figure_count_bounds Example.globals 501). right. lia.
  - apply (update_figure_count_bounds Example.globals (-1)). left. lia.
  - destruct (proj2 (update_figure_count_bounds Example.globals 0 [] [])
                ltac:(lia) eq_refl eq_refl) as [fig [Hf [_ [_ He]]]].
    exists fig. split; [exact Hf | exact (He eq_refl)].
  - destruct (proj2 (update_figure_count_bounds Example.globals 500
                       (seq 0 500) (rev (seq 0 500)))
                ltac:(lia) ltac:(vm_compute; reflexivity)
                ltac:(vm_compute; reflexivity)) as [fig [Hf [Hx _]]].
    exists fig. split; [exact Hf | exact Hx].
Defined.

Lemma NoDup_combine {A B} (l : list A) (l' : list B) :
  NoDup l -> NoDup (combine l l').
Proof.
  intros H. revert l'. induction H as [|a l Ha _ IH]; intros l';
    [constructor|].
  destruct l' as [|b l']; simpl; [constructor|].
  constructor; [|apply IH].
  intros Hin. apply Ha. exact (in_combine_l _ _ _ _ Hin).
Qed.

(** X6.  No two points of a figure share a position: as the x values are
    all different, so are the (x, y) pairs, although x and y are drawn
    apart. *)
Theorem figure_positions_distinct (g : Globals) (cids : Z)
  (draw_x draw_y : list nat) (fig : Figure) :
  drawn 500 cids draw_x = true ->
  drawn 500 cids draw_y = true ->
  update_figure g cids draw_x draw_y = Return fig ->
  NoDup (combine (x (data fig)) (y (data fig))) /\
  NoDup (map (fun m => (at_x m, at_y m)) (markers (data fig))).
Proof.
  intros Hx Hy Hfig.
  destruct (update_figure_data g cids draw_x draw_y fig Hfig) as [Hr _].
  assert (Hr' : (0 <= cids <= Z.of_nat 500)%Z) by lia.
  rewrite (update_figure_returns g cids draw_x draw_y Hr' Hx Hy) in Hfig.
  inversion Hfig; subst; clear Hfig. cbn [data x y].
  destruct (drawn_valid 500 cids draw_x Hr' Hx) as [_ [_ Dx]].
  assert (D : NoDup (combine (map Z.of_nat draw_x) (map Z.of_nat draw_y)))
    by (apply NoDup_combine; now apply NoDup_of_nat).
  split; [exact D|].
  unfold markers. cbn [x y].
  set (t := {| x := _ |}).
  assert (E : forall xys i,
             map (fun m => (at_x m, at_y m)) (markers_from t i xys) = xys).
  { induction xys as [|[a b] xys IH]; intros i; simpl;
      [reflexivity | now rewrite IH]. }
  now rewrite E.
Qed.

Lemma figure_positions_distinct_example :
  exists fig,
    update_figure Example.globals 20
      (Example.scattered 20 11) (Example.scattered 20 408) = Return fig /\
    NoDup (combine (x (data fig)) (y (data fig))).
Proof.
  eexists. split; [reflexivity|].
  exact (proj1 (figure_positions_distinct Example.globals 20
                  (Example.scattered 20 11) (Example.scattered 20 408) _
                  eq_refl eq_refl eq_refl)).
Defined.

Lemma getitem_In {K V} (eqb : K -> K -> bool) (d : list (K * V)) (k : K)
  (v : V) : getitem eqb d k = Return v -> In v (map snd d).
Proof.
  induction d as [|[k' v'] d IH]; simpl; [discriminate|].
  destruct (eqb k' k); intros H.
  - inversion H. now left.
  - right. now apply IH.
Qed.

(** X7.  Every colour the loaded module hands to the figure is one of
    the six colour names of the [color] dict and every font size is 35, 27
    or 18: no other style can reach the figure. *)
Theorem styles_come_from_dicts (csv : DataFrame) (g : Globals) :
  load csv = Return g ->
  Forall (fun c => In c ["red"; "maroon"; "indigo"; "turquoise"; "blue";
                         "lightblue"]) (severity_color g) /\
  Forall (fun s => In s [35; 27; 18]%Z) (weight_size g).
Proof.
  intros Hload. destruct (load_globals csv g Hload) as [_ [_ [Hc Hw]]].
  split; apply Forall_forall.
  - intros c Hin.
    assert (Hr : In (Return c) (map Return (severity_color g)))
      by now apply in_map.
    rewrite Hc in Hr. apply in_map_iff in Hr as [r [Hr _]].
    apply getitem_In in Hr. simpl in Hr |- *. intuition.
  - intros z Hin.
    assert (Hr : In (Return z) (map Return (weight_size g)))
      by now apply in_map.
    rewrite Hw in Hr. apply in_map_iff in Hr as [r [Hr _]].
    apply getitem_In in Hr. simpl in Hr |- *. intuition.
Qed.

Lemma styles_come_from_dicts_example :
  Forall (fun c => In c ["red"; "maroon"; "indigo"; "turquoise"; "blue";
                         "lightblue"]) (severity_color Example.globals) /\
  Forall (fun s => In s [35; 27; 18]%Z) (weight_size Example.globals).
Proof.
  exact (styles_come_from_dicts Example.csv Example.globals eq_refl).
Defined.

(** X8.  In any figure returned on a loaded table, the four per-point
    arrays run parallel to the table: they have one entry per row, and
    entry i holds the ID, the name, the colour of the severity and the
    size of the likelihood of row i. *)
Theorem figure_arrays_follow_rows (csv : DataFrame) (g : Globals) (cids : Z)
  (draw_x draw_y : list nat) (fig : Figure) :
  load csv = Return g ->
  update_figure g cids draw_x draw_y = Return fig ->
  List.length (text (data fig)) = List.length csv /\
  List.length (hovertext (data fig)) = List.length csv /\
  List.length (textfont_size (data fig)) = List.length csv /\
  List.length (textfont_color (data fig)) = List.length csv /\
  forall i r, nth_error csv i = Some r ->
    nth_error (text (data fig)) i = Some (ID r) /\
    nth_error (hovertext (data fig)) i = Some (Name r) /\
    (exists c, nth_error (textfont_color (data fig)) i = Some c /\
               getitem cell_eqb color (Typical_Severity r) = Return c) /\
    (exists s, nth_error (textfont_size (data fig)) i = Some s /\
               getitem cell_eqb weights (Likelihood_Of_Attack r) = Return s).
Proof.
  intros Hload Hfig.
  destruct (update_figure_data g cids draw_x draw_y fig Hfig)
    as [_ [_ [_ [Ht [Hh [Hs Hc]]]]]].
  destruct (load_globals csv g Hload) as [Hdf [Hids [Mc Mw]]].
  rewrite Ht, Hh, Hs, Hc, Hids, Hdf. unfold column.
  assert (Lc : List.length (severity_color g) = List.length csv).
  { apply (f_equal (@List.length _)) in Mc. now rewrite !length_map in Mc. }
  assert (Lw : List.length (weight_size g) = List.length csv).
  { apply (f_equal (@List.length _)) in Mw. now rewrite !length_map in Mw. }
  rewrite !length_map.
  repeat split; try assumption; try (now apply map_nth_error).
  - destruct (map_Return_nth (severity_color g) _ i
                (getitem cell_eqb color (Typical_Severity r)) Mc)
      as [c [Hc' Ec]]; [now apply map_nth_error with (f := fun r => _)|].
    now exists c.
  - destruct (map_Return_nth (weight_size g) _ i
                (getitem cell_eqb weights (Likelihood_Of_Attack r)) Mw)
      as [z [Hz Ez]]; [now apply map_nth_error with (f := fun r => _)|].
    now exists z.
Qed.

(** Row 2 of the example table (High, Medium) in a figure of 20 points
    and row 60 (missing, missing), which no point of that figure shows. *)
Lemma figure_arrays_follow_rows_example :
  exists fig,
    update_figure Example.globals 20
      (Example.scattered 20 11) (Example.scattered 20 408) = Return fig /\
    List.length (text (data fig)) = 60 /\
    nth_error (text (data fig)) 1 = Some "CAPEC-2" /\
    nth_error (hovertext (data fig)) 1 = Some "Pattern 2" /\
    nth_error (text (data fig)) 59 = Some "CAPEC-60".
Proof.
  eexists. split; [reflexivity|].
  destruct (figure_arrays_follow_rows Example.csv Example.globals 20
              (Example.scattered 20 11) (Example.scattered 20 408) _
              eq_refl eq_refl) as [Lt [_ [_ [_ Hrow]]]].
  split; [exact Lt|].
  destruct (Hrow 1 (Example.row_of 2) eq_refl) as [H1 [H2 _]].
  destruct (Hrow 59 (Example.row_of 60) eq_refl) as [H3 _].
  split; [exact H1|]. split; [exact H2 | exact H3].
Defined.

Lemma markers_from_nth (t : Scatter) (k : nat) (xys : list (Z * Z)) (i : nat)
  (m : marker) :
  nth_error (markers_from t k xys) i = Some m ->
  label m = nth_error (text t) (k + i) /\
  hover m = nth_error (hovertext t) (k + i).
Proof.
  revert k i. induction xys as [|xy xys IH]; intros k i H.
  - destruct i; discriminate.
  - destruct i as [|i]; simpl in H.
    + inversion H. rewrite Nat.add_0_r. split; reflexivity.
    + replace (k + S i) with (S k + i) by lia. now apply IH.
Qed.

(** [on_click] on a row of the loaded table. *)
Lemma on_click_row (wrap : string -> nat -> list string) (csv : DataFrame)
  (g : Globals) (i : nat) (r : Row) :
  load csv = Return g ->
  nth_error csv i = Some r ->
  on_click wrap g (click_of i)
  = Return (Div (pylist
      [H3 (str (Name r))
          (Some [("color", css "darkgrey"); ("fontSize", num 25)]);
       P (str (join newline (wrap (Description r) 100))) (grey 15);
       P (pylist
            [str "To learn more follow this link: ";
             A (str ("https://capec.mitre.org/data/definitions/" ++ ID r))
               ("https://capec.mitre.org/data/definitions/" ++ ID r)
               "_blank"]) (grey 12)])).
Proof.
  intros Hload Hr.
  destruct (load_globals csv g Hload) as [Hdf [Hids _]].
  assert (Hi : (0 <= Z.of_nat i)%Z) by lia.
  assert (Hr' : nth_error csv (Z.to_nat (Z.of_nat i)) = Some r)
    by now rewrite Nat2Z.id.
  unfold on_click, click_of, first_point. cbn [points pointIndex bind].
  rewrite Hdf, !(loc_found csv _ r _ Hi Hr'). cbn [bind].
  rewrite Hids. unfold column.
  rewrite (at_label_found _ _ (ID r) Hi (map_nth_error ID _ _ Hr')).
  reflexivity.
Qed.

(** X9.  Clicking a labelled point of a figure shows that point: the
    heading is the hover text of the point and the link is the CAPEC link
    of the point's label, whatever count and positions the figure was
    drawn with. *)
Theorem click_shows_clicked_point (wrap : string -> nat -> list string)
  (csv : DataFrame) (g : Globals) (cids : Z) (draw_x draw_y : list nat)
  (fig : Figure) (i : nat) (m : marker) (id : string) :
  load csv = Return g ->
  update_figure g cids draw_x draw_y = Return fig ->
  nth_error (markers (data fig)) i = Some m ->
  label m = Some id ->
  exists name out,
    hover m = Some name /\
    on_click wrap g (click_of i) = Return out /\
    hd_error (texts out) = Some name /\
    hrefs out = [("https://capec.mitre.org/data/definitions/" ++ id)%string].
Proof.
  intros Hload Hfig Hm Hl.
  destruct (update_figure_data g cids draw_x draw_y fig Hfig)
    as [_ [_ [_ [Ht [Hh _]]]]].
  destruct (load_globals csv g Hload) as [Hdf [Hids _]].
  destruct (markers_from_nth _ _ _ _ _ Hm) as [Lm Hv].
  cbn [Nat.add] in Lm, Hv.
  rewrite Ht, Hids in Lm. rewrite Hh, Hdf in Hv. unfold column in Lm, Hv.
  rewrite Hl in Lm. symmetry in Lm. rewrite nth_error_map in Lm.
  destruct (nth_error csv i) as [r|] eqn:Hr; [|discriminate].
  inversion Lm as [Hid].
  exists (Name r). eexists.
  split; [rewrite Hv, nth_error_map, Hr; reflexivity|].
  split; [exact (on_click_row wrap csv g i r Hload Hr)|].
  split; reflexivity.
Qed.

(** Point 4 of a figure over the example table is labelled CAPEC-5. *)
Lemma click_shows_clicked_point_example :
  exists out,
    on_click Example.short_wrap Example.globals (click_of 4) = Return out /\
    hd_error (texts out) = Some "Pattern 5" /\
    hrefs out = ["https://capec.mitre.org/data/definitions/CAPEC-5"].
Proof.
  destruct (click_shows_clicked_point Example.short_wrap Example.csv
              Example.globals 20
              (Example.scattered 20 11) (Example.scattered 20 408)
              _ 4 _ "CAPEC-5" eq_refl eq_refl eq_refl eq_refl)
    as [name [out [Hh [Hout [Ht Hl]]]]].
  exists out. split; [exact Hout|].
  vm_compute in Hh. inversion Hh; subst name.
  split; [exact Ht | exact Hl].
Defined.

(** ** The delimited fields *)

Lemma join_snoc_empty (sep : string) (l : list string) :
  l <> [] -> join sep (l ++ [""]) = (join sep l ++ sep)%string.
Proof.
  unfold join. induction l as [|a l IH]; intros Hne; [now elim Hne|].
  destruct l as [|b l].
  - simpl. now rewrite append_empty_r.
  - change (concat sep ((a :: b :: l) ++ [""]))
      with (a ++ sep ++ concat sep ((b :: l) ++ [""]))%string.
    rewrite IH by discriminate.
    change (concat sep (a :: b :: l))
      with (a ++ sep ++ concat sep (b :: l))%string.
    now rewrite !append_assoc.
Qed.

(** The framed text of a non-empty list splits into an empty piece, the
    identifiers, and an empty piece. *)
Lemma split_framed (ids : list string) :
  ids <> [] ->
  forallb (lacks ":") ids = true ->
  split_from "::" 0 (framed ids) = "" :: ids ++ [""].
Proof.
  intros Hne H.
  assert (E : framed ids = join "::" ("" :: ids ++ [""])).
  { unfold framed.
    assert (J : join "::" ("" :: ids ++ [""])
                = ("" ++ "::" ++ join "::" (ids ++ [""]))%string).
    { unfold join. destruct ids; [now elim Hne | reflexivity]. }
    rewrite J, (join_snoc_empty "::" ids Hne). reflexivity. }
  rewrite E. apply split_join_colon; [discriminate|].
  cbn [forallb lacks andb]. rewrite forallb_app, H. reflexivity.
Qed.

(** X10.  Round trip of the weaknesses column: for a selected row whose
    field frames identifiers free of colons with [::] before, between and
    after, the output has the CWE link of each identifier, in order and
    nothing else.  Empty identifiers are not filtered, and the frame
    around no identifier at all, [::::], gives one link with an empty
    identifier. *)
Theorem framed_weaknesses_resolve (g : Globals) (cd : click) (p : point)
  (others : list point) (r : Row) (ids : list string) :
  points cd = p :: others ->
  (0 <= pointIndex p)%Z ->
  nth_error (df g) (Z.to_nat (pointIndex p)) = Some r ->
  forallb (lacks ":") ids = true ->
  Related_Weaknesses r = txt (framed ids) ->
  exists out,
    update_table g "weakness" (Some cd) = Return out /\
    hrefs out
    = map (fun id => "https://cwe.mitre.org/data/definitions/" ++ id)%string
        (match ids with
         | [] => [""]
         | _ => ids
         end).
Proof.
  intros Hp Hi Hr Hids Hw.
  eexists. split.
  { rewrite (update_table_weakness g cd p others r Hp Hi Hr), Hw.
    reflexivity. }
  rewrite hrefs_of_links, slice_inner.
  destruct ids as [|a ids]; [reflexivity|].
  rewrite (split_framed (a :: ids)) by (discriminate || assumption).
  cbn [tl]. now rewrite removelast_last.
Qed.

(** Row 1 of the example table frames 123 and 456. *)
Lemma framed_weaknesses_resolve_example :
  exists out,
    update_table Example.globals "weakness" (Example.click_at 0) = Return out /\
    hrefs out = [ "https://cwe.mitre.org/data/definitions/123";
                  "https://cwe.mitre.org/data/definitions/456" ].
Proof.
  exact (framed_weaknesses_resolve Example.globals
           {| points := [ {| pointIndex := 0 |} ] |} {| pointIndex := 0 |} []
           (Example.row_of 1) ["123"; "456"]
           eq_refl ltac:(simpl; lia) eq_refl eq_refl eq_refl).
Defined.

Lemma occurs_char_append (c : ascii) (a b : string) :
  occurs (String c "") (a ++ b)
  = occurs (String c "") a || occurs (String c "") b.
Proof.
  induction a as [|d a IH].
  - simpl append. destruct b; reflexivity.
  - change (String d a ++ b)%string with (String d (a ++ b)).
    rewrite !occurs_cons, IH, !prefix_cons.
    destruct (ascii_dec c d); [now rewrite !prefix_empty|].
    reflexivity.
Qed.

(** Pieces of a text that holds no [c] hold no [c]. *)
Lemma join_without_char (c : ascii) (sep : string) (pieces : list string) :
  occurs (String c "") (join sep pieces) = false ->
  Forall (fun piece => occurs (String c "") piece = false) pieces.
Proof.
  unfold join. induction pieces as [|a ps IH]; intros H; [constructor|].
  destruct ps as [|b ps].
  - constructor; [exact H | constructor].
  - change (concat sep (a :: b :: ps))
      with (a ++ sep ++ concat sep (b :: ps))%string in H.
    rewrite !occurs_char_append in H.
    apply orb_false_iff in H as [Ha H]. apply orb_false_iff in H as [_ H].
    constructor; [exact Ha | now apply IH].
Qed.

(** The shown text of a field without line break, line by line. *)
Lemma replaced_lines (field : string) :
  occurs newline field = false ->
  lines (replace field "::" newline) = split_from "::" 0 field.
Proof.
  intros H.
  change (replace field "::" newline)
    with (replace_from "::" newline 0 field).
  rewrite (replace_from_join "::" colons_nonempty).
  apply lines_join.
  - apply split_from_nonempty. exact colons_nonempty.
  - apply (join_without_char "010"%char "::").
    now rewrite (join_split_from "::" colons_nonempty).
Qed.

(** X11.  For a selected row, an instances or mitigations field that
    holds no line break of its own is shown with one line per piece of the
    field: the lines of the shown text are the result of splitting the
    field on [::], so joining them with [::] gives the field back. *)
Theorem shown_lines_are_pieces (g : Globals) (cd : click) (p : point)
  (others : list point) (r : Row) :
  points cd = p :: others ->
  (0 <= pointIndex p)%Z ->
  nth_error (df g) (Z.to_nat (pointIndex p)) = Some r ->
  (forall i, Example_Instances r = txt i -> occurs newline i = false ->
     exists shown,
       update_table g "instance" (Some cd) = Return (P (str shown) (grey 15)) /\
       split i "::" = Return (lines shown) /\
       join "::" (lines shown) = i) /\
  (forall m, Mitigations r = txt m -> occurs newline m = false ->
     exists shown,
       update_table g "mitigation" (Some cd) = Return (P (str shown) (grey 15)) /\
       split m "::" = Return (lines shown) /\
       join "::" (lines shown) = m).
Proof.
  intros Hp Hi Hr. split; intros t Ht Hn; exists (replace t "::" newline).
  - rewrite (update_table_instance g cd p others r Hp Hi Hr), Ht.
    rewrite (replaced_lines t Hn).
    split; [reflexivity|]. split; [reflexivity|].
    apply join_split_from. exact colons_nonempty.
  - rewrite (update_table_mitigation g cd p others r Hp Hi Hr), Ht.
    rewrite (replaced_lines t Hn).
    split; [reflexivity|]. split; [reflexivity|].
    apply join_split_from. exact colons_nonempty.
Qed.

(** Row 1 of the example table: two lines of instances, and four lines
    of mitigations of which the first and last are empty. *)
Lemma shown_lines_are_pieces_example :
  (exists shown,
     update_table Example.globals "instance" (Example.click_at 0)
     = Return (P (str shown) (grey 15)) /\
     lines shown = ["first"; "second"]) /\
  (exists shown,
     update_table Example.globals "mitigation" (Example.click_at 0)
     = Return (P (str shown) (grey 15)) /\
     lines shown = [""; "patch"; "monitor"; ""]).
Proof.
  destruct (shown_lines_are_pieces Example.globals
              {| points := [ {| pointIndex := 0 |} ] |} {| pointIndex := 0 |}
              [] (Example.row_of 1) eq_refl ltac:(simpl; lia) eq_refl)
    as [Hi Hm].
  split.
  - destruct (Hi "first::second" eq_refl eq_refl) as [shown [Ho [Hs _]]].
    exists shown. split; [exact Ho|]. inversion Hs. reflexivity.
  - destruct (Hm "::patch::monitor::" eq_refl eq_refl) as [shown [Ho [Hs _]]].
    exists shown. split; [exact Ho|]. inversion Hs. reflexivity.
Defined.

(** X12.  For a selected row, an instances or mitigations field without
    any [::] is shown exactly as it is stored. *)
Theorem text_without_delimiter_unchanged (g : Globals) (cd : click)
  (p : point) (others : list point) (r : Row) :
  points cd = p :: others ->
  (0 <= pointIndex p)%Z ->
  nth_error (df g) (Z.to_nat (pointIndex p)) = Some r ->
  (forall i, Example_Instances r = txt i -> occurs "::" i = false ->
     update_table g "instance" (Some cd) = Return (P (str i) (grey 15))) /\
  (forall m, Mitigations r = txt m -> occurs "::" m = false ->
     update_table g "mitigation" (Some cd) = Return (P (str m) (grey 15))).
Proof.
  intros Hp Hi Hr.
  assert (E : forall t, occurs "::" t = false -> replace t "::" newline = t).
  { intros t Ht.
    change (replace t "::" newline) with (replace_from "::" newline 0 t).
    rewrite (replace_from_join "::" colons_nonempty).
    now rewrite (split_from_whole "::" t Ht). }
  split; intros t Ht Hn.
  - rewrite (update_table_instance g cd p others r Hp Hi Hr), Ht.
    now rewrite (E t Hn).
  - rewrite (update_table_mitigation g cd p others r Hp Hi Hr), Ht.
    now rewrite (E t Hn).
Qed.

Lemma text_without_delimiter_unchanged_example :
  update_table Example.plain "instance" (Example.click_at 0)
  = Return (P (str "One known case.") (grey 15)) /\
  update_table Example.plain "mitigation" (Example.click_at 0)
  = Return (P (str "Note: validate all input.") (grey 15)).
Proof.
  destruct (text_without_delimiter_unchanged Example.plain
              {| points := [ {| pointIndex := 0 |} ] |} {| pointIndex := 0 |}
              [] _ eq_refl ltac:(simpl; lia) eq_refl)
    as [Hi Hm].
  split; [exact (Hi _ eq_refl eq_refl) | exact (Hm _ eq_refl eq_refl)].
Defined.

(** X13.  What [split] and [replace] do with any separator: an empty
    separator makes [split] raise [ValueError]; otherwise [split] returns
    at least one piece, no piece holds the separator, joining the pieces
    with the separator gives the text back, and [replace] is the same
    pieces joined with the new text. *)
Theorem split_round_trip (s sep new : string) :
  match split s sep with
  | Raise e => sep = "" /\ e = ValueError
  | Return pieces =>
      sep <> "" /\
      pieces <> [] /\
      Forall (fun piece => occurs sep piece = false) pieces /\
      join sep pieces = s /\
      replace s sep new = join new pieces
  end.
Proof.
  destruct sep as [|a t]; [now split|].
  assert (Hne : String a t <> "") by discriminate.
  cbn [split].
  split; [exact Hne|].
  split; [exact (split_from_nonempty _ Hne s)|].
  split; [exact (split_from_pieces _ Hne s)|].
  split; [exact (join_split_from _ Hne s)|].
  exact (replace_from_join _ Hne new s).
Qed.

(** ** The selectors of the layout *)



(** ** Columns without text *)

Lemma subscripts_only_KeyError {V} (d : list (cell * V)) (cells : list cell)
  (e : exn) : subscripts d cells = Raise e -> e = KeyError.
Proof.
  unfold subscripts. destruct (float64 cells).
  - induction cells as [|c cells IH]; simpl; congruence.
  - induction cells as [|c cells IH]; simpl; [congruence|].
    destruct (getitem cell_eqb d c) as [v|e'] eqn:E; simpl.
    + destruct (comprehension _ cells); simpl; [congruence|].
      intros H. inversion H; subst. now apply IH.
    + intros H. inversion H; subst. exact (getitem_raises _ _ _ _ E).
Qed.

Lemma float64_all_missing (col : Row -> cell) (csv : DataFrame) :
  csv <> [] -> (forall r, In r csv -> col r = nan) ->
  float64 (column col csv) = true.
Proof.
  intros Hne Hall. unfold float64, column.
  destruct (map col csv) as [|c0 cs] eqn:E;
    [destruct csv; [now elim Hne | discriminate]|].
  rewrite <- E. apply forallb_forall. intros v Hv.
  apply in_map_iff in Hv as [r [<- Hr]]. now rewrite (Hall r Hr).
Qed.

(** X15.  The [np.nan] entries of the dicts do not cover a column
    without any text: on a table with rows in which every severity is
    missing, or every likelihood, the module raises [KeyError] while it
    loads. *)
Theorem all_missing_column_raises (csv : DataFrame) :
  csv <> [] ->
  (forall r, In r csv -> Typical_Severity r = nan) \/
  (forall r, In r csv -> Likelihood_Of_Attack r = nan) ->
  load csv = Raise KeyError.
Proof.
  intros Hne [Hsev|Hlik]; unfold load.
  - now rewrite (subscripts_float64 color _
                   (float64_all_missing Typical_Severity csv Hne Hsev)).
  - destruct (subscripts color (column Typical_Severity csv)) as [sc|e] eqn:E;
      cbn [bind].
    + now rewrite (subscripts_float64 weights _
                     (float64_all_missing Likelihood_Of_Attack csv Hne Hlik)).
    + now rewrite (subscripts_only_KeyError _ _ _ E).
Qed.

(** Two rows without severity, the first with a likelihood. *)
Lemma all_missing_column_raises_example :
  load Example.no_severity = Raise KeyError.
Proof.
  apply all_missing_column_raises; [discriminate|].
  left. intros r [<-|[<-|[]]]; reflexivity.
Defined.
